(** * Recent Files (Obsidian plugin): a shallow embedding of [src/main.ts]

    The plugin keeps a bounded list of the most recently modified files of
    the vault, shows it in a side pane and lets the user omit files by
    regular expressions.  This development embeds the stateful core of
    [main.ts] (the list view's [updateData], [update], [focusFile], the
    plugin's [loadData], [saveData], [pruneOmittedFiles], [shouldAddFile],
    [handleRename], [handleDelete] and the settings callbacks) and states
    the properties of the specification over it.

    Modelling conventions.
    - The plugin's [data] object is shared by the plugin and the view
      ([Object.assign] returns its target, and the view is constructed with
      [this.data]); the model has one [data] field in the [World].
    - Handlers run to completion (single-threaded host); an [await] is a
      sequence point.
    - The plugin's field [view] is unassigned until the view is created;
      the plugin's and the settings tab's calls of [this.view.redraw()]
      throw a [TypeError] until then, while the view's own methods call
      [this.redraw()].
    - Calls into the host that the claims talk about are recorded in a
      trace of [Effect]s, most recent first.
    - JavaScript exceptions are explicit: a computation yields a
      [Completion], normal or abrupt, together with the world it leaves.
    - [ECMAScript]'s [RegExp] is a builtin of the host, not code of the
      plugin: it is an interface ([RegExpEngine]) the development is
      parametric in. *)

From Stdlib Require Import String Ascii List ZArith Bool Lia Permutation Sorted.
Import ListNotations.
Local Open Scope string_scope.
Local Open Scope list_scope.
Local Open Scope Z_scope.

(** ** Data model *)

(** [interface FilePath] *)
Record FilePath := mkFilePath {
  fp_path : string;
  fp_basename : string
}.

(** [interface RecentFileInfo] *)
Record RecentFileInfo := mkRecentFileInfo {
  path : string;
  basename : string;
  mtime : Z
}.

(** A [RecentFileInfo] is passed where a [FilePath] is expected
    (structural typing). *)
Definition as_FilePath (f : RecentFileInfo) : FilePath :=
  {| fp_path := path f; fp_basename := basename f |}.

(** The values the [maxLength] field takes at run time: [null] (the
    default record), [NaN] ([parseInt] of an empty input) or an integer. *)
Inductive MaybeNumber :=
| Null
| NaN
| Num (z : Z).

(** [interface RecentFilesData] *)
Record RecentFilesData := mkData {
  recentFiles : list RecentFileInfo;
  omittedPaths : list string;
  maxLength : MaybeNumber;
  openType : string
}.

Definition defaultMaxLength : Z := 40.

Definition DEFAULT_DATA : RecentFilesData :=
  {| recentFiles := [];
     omittedPaths := [];
     maxLength := Null;
     openType := "tab" |}.

(** Host objects: [TFile] (with [stat.mtime]) and [TAbstractFile]. *)
Record TFile := mkTFile {
  file_path : string;
  file_name : string;
  file_basename : string;
  file_stat_mtime : Z
}.

Record TAbstractFile := mkTAbstractFile {
  af_path : string;
  af_name : string
}.

(** The leaf a file is opened in by [focusFile]. *)
Inductive LeafChoice :=
| MostRecentLeaf
| NewLeaf (kind : string).

(** Calls into the host. *)
Inductive Effect :=
| VaultGetFiles
| SaveData (snapshot : RecentFilesData)
| Redraw (shown : list RecentFileInfo)
| ShowNotice (msg : string)
| ConsoleLog (msg : string)
| ConsoleError (msg : string)
| LeafOpenFile (target : string) (leaf : LeafChoice)
| SettingsDisplay.

(** The plugin's state together with the part of the host it reads.
    [has_view] tells whether the plugin's field [view] has been assigned:
    it is declared without a value and only the factory passed to
    [registerView] assigns it. *)
Record World := mkWorld {
  data : RecentFilesData;
  vault_files : list TFile;
  vault_folders : list string;
  leaf_pinned : bool;
  has_view : bool;
  trace : list Effect
}.

Definition set_data (d : RecentFilesData) (w : World) : World :=
  {| data := d; vault_files := vault_files w; vault_folders := vault_folders w;
     leaf_pinned := leaf_pinned w; has_view := has_view w; trace := trace w |}.

Definition add_trace (es : list Effect) (w : World) : World :=
  {| data := data w; vault_files := vault_files w; vault_folders := vault_folders w;
     leaf_pinned := leaf_pinned w; has_view := has_view w; trace := es ++ trace w |}.

Definition with_recentFiles (l : list RecentFileInfo) (d : RecentFilesData) : RecentFilesData :=
  {| recentFiles := l; omittedPaths := omittedPaths d;
     maxLength := maxLength d; openType := openType d |}.

Definition with_omittedPaths (ps : list string) (d : RecentFilesData) : RecentFilesData :=
  {| recentFiles := recentFiles d; omittedPaths := ps;
     maxLength := maxLength d; openType := openType d |}.

Definition with_maxLength (m : MaybeNumber) (d : RecentFilesData) : RecentFilesData :=
  {| recentFiles := recentFiles d; omittedPaths := omittedPaths d;
     maxLength := m; openType := openType d |}.

Definition with_openType (s : string) (d : RecentFilesData) : RecentFilesData :=
  {| recentFiles := recentFiles d; omittedPaths := omittedPaths d;
     maxLength := maxLength d; openType := s |}.

(** ** Computations: state and exceptions *)

Inductive Completion (A : Type) :=
| Normal (a : A)
| Abrupt (err : string).
Arguments Normal {A} a.
Arguments Abrupt {A} err.

Definition M (A : Type) : Type := World -> Completion A * World.

Definition ret {A} (a : A) : M A := fun w => (Normal a, w).

Definition bind {A B} (m : M A) (k : A -> M B) : M B :=
  fun w =>
    match m w with
    | (Normal a, w') => k a w'
    | (Abrupt e, w') => (Abrupt e, w')
    end.

Definition throw {A} (e : string) : M A := fun w => (Abrupt e, w).

(** [try { body } catch (err) { handler }] *)
Definition try_catch {A} (body : M A) (handler : string -> M A) : M A :=
  fun w =>
    match body w with
    | (Normal a, w') => (Normal a, w')
    | (Abrupt e, w') => handler e w'
    end.

Declare Scope js_scope.
Delimit Scope js_scope with js.
Notation "x <- c ;; k" := (bind c (fun x => k))
  (at level 61, c at next level, right associativity) : js_scope.
Notation "c ;; k" := (bind c (fun _ => k))
  (at level 61, right associativity) : js_scope.
Local Open Scope js_scope.

Definition get_data : M RecentFilesData := fun w => (Normal (data w), w).

Definition put_data (d : RecentFilesData) : M unit :=
  fun w => (Normal tt, set_data d w).

Definition emit (e : Effect) : M unit :=
  fun w => (Normal tt, add_trace [e] w).

(** [this.data.recentFiles = l] *)
Definition set_recentFiles (l : list RecentFileInfo) : M unit :=
  fun w => (Normal tt, set_data (with_recentFiles l (data w)) w).

(** The world a computation leaves, whether it completes normally or not. *)
Definition exec {A} (m : M A) (w : World) : World := snd (m w).

(** ** JavaScript builtins used by the plugin *)

(** Truthiness of a [maxLength] value: [null], [NaN] and [0] are falsy. *)
Definition truthy (m : MaybeNumber) : bool :=
  match m with
  | Null | NaN => false
  | Num z => negb (z =? 0)
  end.

(** [m || d] for a numeric default [d]. *)
Definition or_default (m : MaybeNumber) (d : Z) : Z :=
  match m with
  | Num z => if z =? 0 then d else z
  | Null | NaN => d
  end.

(** [Array.prototype.slice(start, end)] on integer arguments: a negative
    index counts from the end of the array. *)
Definition array_slice {A} (l : list A) (start end_ : Z) : list A :=
  let len := Z.of_nat (length l) in
  let k := if start <? 0 then Z.max (len + start) 0 else Z.min start len in
  let final := if end_ <? 0 then Z.max (len + end_) 0 else Z.min end_ len in
  firstn (Z.to_nat (Z.max (final - k) 0)) (skipn (Z.to_nat k) l).

(** [Array.prototype.sort(cmp)]: the sort is stable; an element is placed
    before the first element it does not compare greater than. *)
Fixpoint sort_insert {A} (cmp : A -> A -> Z) (x : A) (l : list A) : list A :=
  match l with
  | [] => [x]
  | y :: l' => if cmp x y <=? 0 then x :: l else y :: sort_insert cmp x l'
  end.

Fixpoint array_sort {A} (cmp : A -> A -> Z) (l : list A) : list A :=
  match l with
  | [] => []
  | x :: l' => sort_insert cmp x (array_sort cmp l')
  end.

(** [Array.prototype.findIndex]-style search behind [find]: the position of
    the first element satisfying the predicate; [find] returns a reference
    to that element. *)
Fixpoint array_find_index {A} (p : A -> bool) (l : list A) : option nat :=
  match l with
  | [] => None
  | x :: l' => if p x then Some O
               else match array_find_index p l' with
                    | Some i => Some (S i)
                    | None => None
                    end
  end.

(** Assignment to a field of the object at position [i] of an array. *)
Fixpoint update_at {A} (i : nat) (f : A -> A) (l : list A) : list A :=
  match l, i with
  | [], _ => []
  | x :: l', O => f x :: l'
  | x :: l', S j => x :: update_at j f l'
  end.

(** [Array.prototype.some] with a callback that may have effects or throw. *)
Fixpoint array_some {A} (f : A -> M bool) (l : list A) : M bool :=
  match l with
  | [] => ret false
  | x :: l' => b <- f x ;; if (b : bool) then ret true else array_some f l'
  end.

(** [Array.prototype.filter] with a callback that may have effects or throw. *)
Fixpoint array_filter {A} (f : A -> M bool) (l : list A) : M (list A) :=
  match l with
  | [] => ret []
  | x :: l' =>
      b <- f x ;;
      rest <- array_filter f l' ;;
      ret (if (b : bool) then x :: rest else rest)
  end.

(** [String.prototype.split('\n')] *)
Definition newline : ascii := ascii_of_nat 10.

Fixpoint split_lines (s : string) : list string :=
  match s with
  | EmptyString => [EmptyString]
  | String c s' =>
      if Ascii.eqb c newline then EmptyString :: split_lines s'
      else match split_lines s' with
           | [] => [String c EmptyString]
           | first :: rest => String c first :: rest
           end
  end.

(** The regular expressions of the host. [RegExp_new] is the constructor,
    which throws a [SyntaxError] on a malformed pattern; [RegExp_test] is
    [RegExp.prototype.test] of a regular expression without flags. *)
Class RegExpEngine := {
  RegExpObject : Type;
  RegExp_new : string -> Completion RegExpObject;
  RegExp_test : RegExpObject -> string -> bool
}.

(** ** The plugin *)

(** [sortFunc] *)
Definition sortFunc (a b : RecentFileInfo) : Z :=
  if mtime a >? mtime b then -1
  else if mtime a <? mtime b then 1
  else 0.

(** [this.app.vault.getFiles()] *)
Definition vault_getFiles : M (list TFile) :=
  emit VaultGetFiles ;;
  fun w => (Normal (vault_files w), w).

(** [this.app.vault.getAbstractFileByPath(path)]: a file or a folder of
    the vault, or [null]. *)
Definition getAbstractFileByPath (w : World) (p : string) : option string :=
  if existsb (fun f => String.eqb (file_path f) p) (vault_files w)
     || existsb (fun d => String.eqb d p) (vault_folders w)
  then Some p else None.

(** [RecentFilesPlugin.saveData] *)
Definition saveData : M unit :=
  d <- get_data ;;
  emit (SaveData d).

(** [RecentFilesListView.redraw]: renders [this.data.recentFiles]. *)
Definition redraw : M unit :=
  d <- get_data ;;
  emit (Redraw (recentFiles d)).

Definition to_RecentFileInfo (file : TFile) : RecentFileInfo :=
  {| basename := file_basename file;
     path := file_path file;
     mtime := file_stat_mtime file |}.

(** [RecentFilesListView.updateData] *)
Definition updateData : M unit :=
  files <- vault_getFiles ;;
  let recentFiles0 := map to_RecentFileInfo files in
  let recentFiles1 := array_sort sortFunc recentFiles0 in
  d <- get_data ;;
  set_recentFiles
    (array_slice recentFiles1 0 (or_default (maxLength d) defaultMaxLength)) ;;
  saveData.

(** [RecentFilesListView.update], the [editor-change] handler; [info_file]
    is the path of [info.file] when [info?.file] is present. *)
Definition update (info_file : option string) : M unit :=
  d <- get_data ;;
  let already_first :=
    match info_file with
    | Some p =>
        (0 <? length (recentFiles d))%nat
        && match nth_error (recentFiles d) 0 with
           | Some first => String.eqb p (path first)
           | None => false
           end
    | None => false
    end in
  if already_first then ret tt
  else (updateData ;; redraw).

(** [this.view.redraw()] in the plugin and [this.plugin.view.redraw()] in
    the settings tab: reading [redraw] of an unassigned [view] throws. *)
Definition view_undefined : string :=
  "TypeError: Cannot read properties of undefined (reading 'redraw')".

Definition view_redraw : M unit :=
  fun w => if has_view w then redraw w else throw view_undefined w.

(** The [file-open] handler registered by [load] is [redraw]. *)
Definition on_file_open (file : option string) : M unit := redraw.

(** [RecentFilesListView.focusFile]; [this.plugin.data] and [this.data]
    are the same object. *)
Definition focusFile (file : RecentFileInfo) (shouldSplit : bool) : M unit :=
  fun w =>
    match getAbstractFileByPath w (path file) with
    | Some targetFile =>
        let createLeaf := shouldSplit || leaf_pinned w in
        let leaf :=
          if createLeaf then
            if String.eqb (openType (data w)) "split" then NewLeaf "split"
            else if String.eqb (openType (data w)) "window" then NewLeaf "window"
            else NewLeaf "tab"
          else MostRecentLeaf in
        emit (LeafOpenFile targetFile leaf) w
    | None =>
        (emit (ShowNotice "Cannot find a file with that name") ;;
         d <- get_data ;;
         set_recentFiles
           (filter (fun fp => negb (String.eqb (path fp) (path file))) (recentFiles d)) ;;
         saveData ;;
         redraw) w
    end.

(** The header menu's [Clear list] item. *)
Definition clearList : M unit :=
  set_recentFiles [] ;;
  saveData ;;
  redraw.

(** What [super.loadData()] returns: [null], or the stored object, each of
    whose fields may be missing. *)
Record StoredData := mkStored {
  stored_recentFiles : option (list RecentFileInfo);
  stored_omittedPaths : option (list string);
  stored_maxLength : option MaybeNumber;
  stored_openType : option string
}.

(** [Object.assign(target, source)]: the fields present in the source
    overwrite the target's; a [null] source is skipped. *)
Definition Object_assign (target : RecentFilesData) (source : option StoredData)
  : RecentFilesData :=
  match source with
  | None => target
  | Some s =>
      {| recentFiles := match stored_recentFiles s with Some v => v | None => recentFiles target end;
         omittedPaths := match stored_omittedPaths s with Some v => v | None => omittedPaths target end;
         maxLength := match stored_maxLength s with Some v => v | None => maxLength target end;
         openType := match stored_openType s with Some v => v | None => openType target end |}
  end.

(** [RecentFilesPlugin.loadData] *)
Definition loadData (stored : option StoredData) : M unit :=
  put_data (Object_assign DEFAULT_DATA stored) ;;
  d <- get_data ;;
  if negb (truthy (maxLength d)) then
    emit (ConsoleLog "Recent Files: maxLength is not set, using default (40)")
  else ret tt.

Section Plugin.
Context {engine : RegExpEngine}.

(** [new RegExp(pattern)] *)
Definition new_RegExp (pattern : string) : M RegExpObject :=
  fun w => (RegExp_new pattern, w).

(** [RecentFilesPlugin.shouldAddFile] *)
Definition shouldAddFile (file : FilePath) : M bool :=
  d <- get_data ;;
  let patterns := filter (fun p => (0 <? String.length p)%nat) (omittedPaths d) in
  let fileMatchesRegex (pattern : string) : M bool :=
    try_catch
      (r <- new_RegExp pattern ;; ret (RegExp_test r (fp_path file)))
      (fun err =>
         emit (ConsoleError ("Recent Files: Invalid regex pattern: " ++ pattern)) ;;
         ret false) in
  found <- array_some fileMatchesRegex patterns ;;
  ret (negb found).

(** [RecentFilesPlugin.pruneOmittedFiles] *)
Definition pruneOmittedFiles : M unit :=
  d <- get_data ;;
  kept <- array_filter (fun f => shouldAddFile (as_FilePath f)) (recentFiles d) ;;
  set_recentFiles kept ;;
  saveData.

End Plugin.

(** [RecentFilesPlugin.trimExtension]: [name.replace(/\.[^/.]+$/, '')].
    The expression matches at a dot that is followed, up to the end of the
    name, by one or more characters other than a slash and a dot. *)
Definition is_dot (c : ascii) : bool := Ascii.eqb c "."%char.
Definition is_slash (c : ascii) : bool := Ascii.eqb c "/"%char.

Fixpoint no_slash_or_dot (s : string) : bool :=
  match s with
  | EmptyString => true
  | String c s' => negb (is_slash c) && negb (is_dot c) && no_slash_or_dot s'
  end.

Definition extension_tail (s : string) : bool :=
  match s with
  | EmptyString => false
  | String _ _ => no_slash_or_dot s
  end.

Fixpoint trimExtension (name : string) : string :=
  match name with
  | EmptyString => EmptyString
  | String c rest =>
      if is_dot c && extension_tail rest then EmptyString
      else String c (trimExtension rest)
  end.

(** Assignment to a field of the entry [find] returned. *)
Definition set_entry (entry : nat) (f : RecentFileInfo -> RecentFileInfo) : M unit :=
  fun w => (Normal tt,
            set_data (with_recentFiles (update_at entry f (recentFiles (data w))) (data w)) w).

(** [RecentFilesPlugin.handleRename]; [this.view] is the list view. *)
Definition handleRename (file : TAbstractFile) (oldPath : string) : M unit :=
  d <- get_data ;;
  match array_find_index (fun recentFile => String.eqb (path recentFile) oldPath)
                         (recentFiles d) with
  | Some entry =>
      set_entry entry (fun e => {| path := af_path file; basename := basename e; mtime := mtime e |}) ;;
      set_entry entry (fun e => {| path := path e; basename := trimExtension (af_name file); mtime := mtime e |}) ;;
      view_redraw ;;
      saveData
  | None => ret tt
  end.

(** [RecentFilesPlugin.handleDelete] *)
Definition handleDelete (file : TAbstractFile) : M unit :=
  d <- get_data ;;
  let beforeLen := length (recentFiles d) in
  set_recentFiles
    (filter (fun recentFile => negb (String.eqb (path recentFile) (af_path file)))
            (recentFiles d)) ;;
  d' <- get_data ;;
  if negb (Nat.eqb beforeLen (length (recentFiles d'))) then
    (view_redraw ;; saveData)
  else ret tt.

(** The settings tab. [parsed] is the result of [parseInt(value, 10)]:
    [None] stands for [NaN]. *)
Definition of_parseInt (parsed : option Z) : MaybeNumber :=
  match parsed with
  | Some z => Num z
  | None => NaN
  end.

Definition maxLength_onChange (parsed : option Z) : M unit :=
  match parsed with
  | Some z => if z <=? 0 then emit (ShowNotice "List length must be a positive integer")
              else ret tt
  | None => ret tt
  end.

Definition maxLength_onblur (parsed : option Z) : M unit :=
  d <- get_data ;;
  put_data (with_maxLength (of_parseInt parsed) d) ;;
  view_redraw.

Definition openType_onChange (value : string) : M unit :=
  d <- get_data ;;
  put_data (with_openType value d) ;;
  saveData ;;
  emit SettingsDisplay.

Definition omittedPaths_onblur {engine : RegExpEngine} (value : string) : M unit :=
  d <- get_data ;;
  put_data (with_omittedPaths (split_lines value) d) ;;
  pruneOmittedFiles ;;
  view_redraw.

(** ** Events *)

Inductive Event :=
| FileOpen (file : option string)
| EditorChange (info_file : option string)
| VaultRename (file : TAbstractFile) (oldPath : string)
| VaultDelete (file : TAbstractFile)
| ItemClick (file : RecentFileInfo) (ctrlOrMeta : bool)
| ClearListClick
| OmittedPathsBlur (value : string)
| MaxLengthChange (parsed : option Z)
| MaxLengthBlur (parsed : option Z)
| OpenTypeChange (value : string)
| VaultChanged (files : list TFile) (folders : list string)
| LeafPinned (pinned : bool)
| ViewCreated.

(** Changes of the host that the plugin only observes later. *)
Definition host_set_vault (files : list TFile) (folders : list string) : M unit :=
  fun w => (Normal tt,
            {| data := data w; vault_files := files; vault_folders := folders;
               leaf_pinned := leaf_pinned w; has_view := has_view w; trace := trace w |}).

Definition host_set_pinned (pinned : bool) : M unit :=
  fun w => (Normal tt,
            {| data := data w; vault_files := vault_files w;
               vault_folders := vault_folders w;
               leaf_pinned := pinned; has_view := has_view w; trace := trace w |}).

(** The factory passed to [registerView] assigns [this.view]; the host
    then opens the view, whose [onOpen] redraws. *)
Definition create_view : M unit :=
  (fun w => (Normal tt,
             {| data := data w; vault_files := vault_files w;
                vault_folders := vault_folders w; leaf_pinned := leaf_pinned w;
                has_view := true; trace := trace w |})) ;;
  redraw.

(** The handlers of the view ([file-open] and [editor-change], registered
    by its [load], and the clicks on its rows and on its menu) only run
    once there is a view. *)
Definition of_view (m : M unit) : M unit :=
  fun w => if has_view w then m w else ret tt w.

Definition handle {engine : RegExpEngine} (ev : Event) : M unit :=
  match ev with
  | FileOpen file => of_view (on_file_open file)
  | EditorChange info_file => of_view (update info_file)
  | VaultRename file oldPath => handleRename file oldPath
  | VaultDelete file => handleDelete file
  | ItemClick file ctrlOrMeta => of_view (focusFile file ctrlOrMeta)
  | ClearListClick => of_view clearList
  | OmittedPathsBlur value => omittedPaths_onblur value
  | MaxLengthChange parsed => maxLength_onChange parsed
  | MaxLengthBlur parsed => maxLength_onblur parsed
  | OpenTypeChange value => openType_onChange value
  | VaultChanged files folders => host_set_vault files folders
  | LeafPinned pinned => host_set_pinned pinned
  | ViewCreated => create_view
  end.

(** The host dispatches the events one after the other; an exception in a
    handler does not stop the dispatch of the later events. *)
Definition run_events {engine : RegExpEngine} (evs : list Event) (w : World) : World :=
  fold_left (fun w ev => exec (handle ev) w) evs w.

(** ** A regular-expression engine for the concrete examples

    The theorems below hold for every [RegExpEngine].  The concrete
    examples need one engine to run; this one covers the fragment of the
    ECMAScript syntax made of an optional leading [^], a sequence of
    characters, escaped syntax characters and dots, each optionally
    starred, and an optional trailing [$].  On this fragment, and on the
    lone opening parenthesis of the specification's example (a
    [SyntaxError]), it answers as ECMAScript does; any other pattern is
    outside the fragment and is refused by the engine. *)
Module Fragment.

Inductive Atom :=
| Lit (c : ascii)
| AnyChar.

Record Piece := mkPiece {
  atom : Atom;
  starred : bool
}.

Record Pattern := mkPattern {
  from_start : bool;
  pieces : list Piece;
  to_end : bool
}.

(** [SyntaxCharacter] of the ECMAScript grammar. *)
Definition syntax_char (c : ascii) : bool :=
  existsb (Ascii.eqb c)
    ["^"; "$"; "\"; "."; "*"; "+"; "?"; "("; ")"; "["; "]"; "{"; "}"; "|"]%char.

(** The escapes of the fragment: a syntax character or a slash stands for
    itself. *)
Definition identity_escape (c : ascii) : bool :=
  syntax_char c || Ascii.eqb c "/"%char.

Definition star (pieces_rev : list Piece) : Completion (list Piece) :=
  match pieces_rev with
  | {| atom := a; starred := false |} :: rest =>
      Normal ({| atom := a; starred := true |} :: rest)
  | _ => Abrupt "SyntaxError: Nothing to repeat"
  end.

(** The pieces of a pattern, accumulated in reverse. *)
Fixpoint parse_pieces (s : string) (acc : list Piece) : Completion (list Piece * bool) :=
  match s with
  | EmptyString => Normal (rev acc, false)
  | String c rest =>
      if Ascii.eqb c "\"%char then
        match rest with
        | EmptyString => Abrupt "SyntaxError: \ at end of pattern"
        | String e rest' =>
            if identity_escape e
            then parse_pieces rest' ({| atom := Lit e; starred := false |} :: acc)
            else Abrupt "outside the fragment"
        end
      else if Ascii.eqb c "."%char then
        parse_pieces rest ({| atom := AnyChar; starred := false |} :: acc)
      else if Ascii.eqb c "*"%char then
        match star acc with
        | Normal acc' => parse_pieces rest acc'
        | Abrupt e => Abrupt e
        end
      else if Ascii.eqb c "$"%char then
        match rest with
        | EmptyString => Normal (rev acc, true)
        | String _ _ => Abrupt "outside the fragment"
        end
      else if Ascii.eqb c "("%char then
        match rest with
        | EmptyString => Abrupt "SyntaxError: Unterminated group"
        | String _ _ => Abrupt "outside the fragment"
        end
      else if syntax_char c then Abrupt "outside the fragment"
      else parse_pieces rest ({| atom := Lit c; starred := false |} :: acc)
  end.

Definition parse (s : string) : Completion Pattern :=
  let (anchored, body) :=
    match s with
    | String c rest => if Ascii.eqb c "^"%char then (true, rest) else (false, s)
    | EmptyString => (false, s)
    end in
  match parse_pieces body [] with
  | Normal (ps, e) => Normal {| from_start := anchored; pieces := ps; to_end := e |}
  | Abrupt err => Abrupt err
  end.

Definition line_terminator (c : ascii) : bool :=
  Ascii.eqb c (ascii_of_nat 10) || Ascii.eqb c (ascii_of_nat 13).

Definition atom_matches (a : Atom) (c : ascii) : bool :=
  match a with
  | Lit c' => Ascii.eqb c c'
  | AnyChar => negb (line_terminator c)
  end.

(** Does the sequence of pieces match a prefix of the text (the whole
    text when [to_end] is set)? *)
Fixpoint match_here (ps : list Piece) (to_end : bool) (text : string) : bool :=
  match ps with
  | [] => if to_end then match text with EmptyString => true | _ => false end else true
  | p :: ps' =>
      if starred p then
        (fix repeat (t : string) : bool :=
           match_here ps' to_end t
           || match t with
              | EmptyString => false
              | String c t' => atom_matches (atom p) c && repeat t'
              end) text
      else
        match text with
        | EmptyString => false
        | String c t' => atom_matches (atom p) c && match_here ps' to_end t'
        end
  end.

Fixpoint match_anywhere (ps : list Piece) (to_end : bool) (text : string) : bool :=
  match_here ps to_end text
  || match text with
     | EmptyString => false
     | String _ t' => match_anywhere ps to_end t'
     end.

Definition test (r : Pattern) (text : string) : bool :=
  if from_start r then match_here (pieces r) (to_end r) text
  else match_anywhere (pieces r) (to_end r) text.

#[export] Instance engine : RegExpEngine :=
  {| RegExpObject := Pattern; RegExp_new := parse; RegExp_test := test |}.

End Fragment.

(** ** Vocabulary of the specification *)

Section Policy.
Context {engine : RegExpEngine}.

(** A pattern matches a path when it compiles and its test succeeds. *)
Definition pattern_matches (pattern p : string) : bool :=
  match RegExp_new pattern with
  | Normal r => RegExp_test r p
  | Abrupt _ => false
  end.

(** [isAllowed(path, patterns)] in the words of the specification: a path
    is excluded if any non-empty pattern matches it. *)
Definition isAllowed (p : string) (patterns : list string) : bool :=
  negb (existsb (fun pattern => negb (String.eqb pattern "") && pattern_matches pattern p)
                patterns).

End Policy.

Definition is_console_error (e : Effect) : Prop :=
  exists msg, e = ConsoleError msg.

(** The list [updateData] stores, as a function of the enumeration and of
    the [maxLength] setting. *)
Definition recompute (files : list TFile) (m : MaybeNumber) : list RecentFileInfo :=
  array_slice (array_sort sortFunc (map to_RecentFileInfo files)) 0
              (or_default m defaultMaxLength).

(** Newest first. *)
Definition newer_or_equal (a b : RecentFileInfo) : Prop := mtime b <= mtime a.

(** The entries modified at time [t], in list order. *)
Definition modified_at (t : Z) (l : list RecentFileInfo) : list RecentFileInfo :=
  filter (fun f => mtime f =? t) l.

(** [p] is the path of the first entry of the tracked list. *)
Definition already_first (p : string) (w : World) : Prop :=
  exists first rest, recentFiles (data w) = first :: rest /\ path first = p.

Definition clear_trace (w : World) : World :=
  {| data := data w; vault_files := vault_files w; vault_folders := vault_folders w;
     leaf_pinned := leaf_pinned w; has_view := has_view w; trace := [] |}.

(** The effects of one run of a computation, most recent first. *)
Definition emitted {A} (m : M A) (w : World) : list Effect :=
  trace (exec m (clear_trace w)).

(** The run enumerates the vault. *)
Definition enumerates {A} (m : M A) (w : World) : Prop :=
  In VaultGetFiles (emitted m w).

(** The run writes the plugin's data. *)
Definition persists {A} (m : M A) (w : World) : Prop :=
  exists d, In (SaveData d) (emitted m w).

(** The entries of a list other than those at path [p], in order. *)
Definition without_path (p : string) (l : list RecentFileInfo) : list RecentFileInfo :=
  filter (fun f => negb (String.eqb (path f) p)) l.

(** The stored object leaves [maxLength] unset: there is no stored object,
    the field is missing, or it is [null]. *)
Definition maxLength_unset (stored : option StoredData) : Prop :=
  match stored with
  | None => True
  | Some s => stored_maxLength s = None \/ stored_maxLength s = Some Null
  end.

Definition edits_maxLength (ev : Event) : Prop :=
  match ev with
  | MaxLengthBlur _ => True
  | _ => False
  end.

(** ** Sample worlds *)

Definition fresh_world (files : list TFile) : World :=
  {| data := DEFAULT_DATA; vault_files := files; vault_folders := [];
     leaf_pinned := false; has_view := true; trace := [] |}.

Definition daily_md : TFile :=
  {| file_path := "daily/2024-01-01.md"; file_name := "2024-01-01.md";
     file_basename := "2024-01-01"; file_stat_mtime := 200 |}.

Definition note_md : TFile :=
  {| file_path := "note.md"; file_name := "note.md";
     file_basename := "note"; file_stat_mtime := 100 |}.

(** A vault of two notes whose settings omit the daily notes. *)
Definition omitting_world : World :=
  set_data (with_omittedPaths ["^daily/"] DEFAULT_DATA) (fresh_world [daily_md; note_md]).

(** The same vault with a list length of [-1]. *)
Definition negative_length_world : World :=
  set_data (with_maxLength (Num (-1)) DEFAULT_DATA) (fresh_world [daily_md; note_md]).

(** The same vault with a list length of [40]. *)
Definition forty_world : World :=
  set_data (with_maxLength (Num 40) DEFAULT_DATA) (fresh_world [daily_md; note_md]).

(** A world that tracks both notes. *)
Definition tracking_world : World :=
  set_data (with_recentFiles [to_RecentFileInfo daily_md; to_RecentFileInfo note_md]
                             DEFAULT_DATA)
           (fresh_world [daily_md; note_md]).

(** A world that still tracks a note the vault no longer has. *)
Definition stale_world : World :=
  set_data (with_recentFiles [to_RecentFileInfo daily_md; to_RecentFileInfo note_md]
                             DEFAULT_DATA)
           (fresh_world [note_md]).

(** A session: an edit, a deletion, a change of the omitted patterns, a
    click on a stale entry, a change of the open type. *)
Definition sample_session : list Event :=
  [EditorChange (Some "note.md");
   VaultChanged [daily_md] [];
   VaultDelete {| af_path := "note.md"; af_name := "note.md" |};
   OmittedPathsBlur "^daily/";
   EditorChange (Some "daily/2024-01-01.md");
   VaultChanged [] [];
   ItemClick (to_RecentFileInfo daily_md) false;
   OpenTypeChange "split";
   ClearListClick].

(** ** The rest of the view and of the settings tab *)

(** [Array.prototype.join('\n')]: the value the settings tab puts in the
    text area of the omitted patterns. *)
Fixpoint join_lines (l : list string) : string :=
  match l with
  | [] => EmptyString
  | s :: rest =>
      match rest with
      | [] => s
      | _ :: _ => (s ++ String newline (join_lines rest))%string
      end
  end.

Fixpoint no_newline (s : string) : bool :=
  match s with
  | EmptyString => true
  | String c s' => negb (Ascii.eqb c newline) && no_newline s'
  end.

(** The title [redraw] gives an entry:
    [basename.replace(/^\d{4}-\d{2}-\d{2} \d{2}\.\d{2} - /, '')].  The
    expression is anchored at the start and each of its nineteen positions
    is a decimal digit or one given character. *)
Inductive CharClass :=
| Digit
| Exactly (c : ascii).

Definition is_digit (c : ascii) : bool :=
  (48 <=? nat_of_ascii c)%nat && (nat_of_ascii c <=? 57)%nat.

Definition class_matches (k : CharClass) (c : ascii) : bool :=
  match k with
  | Digit => is_digit c
  | Exactly c' => Ascii.eqb c c'
  end.

Definition date_prefix : list CharClass :=
  [Digit; Digit; Digit; Digit; Exactly "-"%char;
   Digit; Digit; Exactly "-"%char;
   Digit; Digit; Exactly " "%char;
   Digit; Digit; Exactly "."%char;
   Digit; Digit; Exactly " "%char; Exactly "-"%char; Exactly " "%char].

(** What follows a match of the classes at the start of the string. *)
Fixpoint strip_prefix (classes : list CharClass) (s : string) : option string :=
  match classes with
  | [] => Some s
  | k :: classes' =>
      match s with
      | EmptyString => None
      | String c s' => if class_matches k c then strip_prefix classes' s' else None
      end
  end.

Definition title_text (name : string) : string :=
  match strip_prefix date_prefix name with
  | Some rest => rest
  | None => name
  end.

(** One row of the list as [redraw] builds it: the [title] attribute, the
    text shown, and whether the row gets the class [is-active]
    ([openFile && currentFile.path === openFile.path]). *)
Record Row := mkRow {
  row_title : string;
  row_text : string;
  row_active : bool
}.

Definition render_row (openFile : option string) (currentFile : RecentFileInfo) : Row :=
  {| row_title := basename currentFile;
     row_text := title_text (basename currentFile);
     row_active := match openFile with
                   | Some p => String.eqb (path currentFile) p
                   | None => false
                   end |}.

Definition render (openFile : option string) (shown : list RecentFileInfo) : list Row :=
  map (render_row openFile) shown.

(** A pattern the policy can use: not empty, and it compiles. *)
Definition usable_pattern {engine : RegExpEngine} (pattern : string) : bool :=
  negb (String.eqb pattern "")
  && match RegExp_new pattern with
     | Normal _ => true
     | Abrupt _ => false
     end.

(** What [shouldAddFile] answers, [false] standing for an abrupt
    completion too. *)
Definition accepts {engine : RegExpEngine} (w : World) (f : RecentFileInfo) : bool :=
  match fst (shouldAddFile (as_FilePath f) w) with
  | Normal b => b
  | Abrupt _ => false
  end.

(** The world with other patterns. *)
Definition with_patterns (patterns : list string) (w : World) : World :=
  set_data (with_omittedPaths patterns (data w)) w.

Definition is_editor_change (ev : Event) : Prop :=
  match ev with
  | EditorChange _ => True
  | _ => False
  end.

(** A world whose list length is [3] and whose vault has more files. *)
Definition old_md : TFile :=
  {| file_path := "old.md"; file_name := "old.md";
     file_basename := "old"; file_stat_mtime := 50 |}.

Definition older_md : TFile :=
  {| file_path := "archive/older.md"; file_name := "older.md";
     file_basename := "older"; file_stat_mtime := 50 |}.

Definition four_files_world : World :=
  set_data (with_maxLength (Num 3) DEFAULT_DATA)
           (fresh_world [old_md; note_md; older_md; daily_md]).

(** The plugin after [onload] and before its view is created: the list
    comes from the stored data. *)
Definition before_view_world : World :=
  {| data := with_recentFiles [to_RecentFileInfo daily_md; to_RecentFileInfo note_md]
                              DEFAULT_DATA;
     vault_files := [daily_md; note_md]; vault_folders := [];
     leaf_pinned := false; has_view := false; trace := [] |}.

(** A vault in which a folder has taken the path of a tracked file that
    is gone. *)
Definition folder_world : World :=
  {| data := with_recentFiles [to_RecentFileInfo daily_md; to_RecentFileInfo note_md]
                              DEFAULT_DATA;
     vault_files := [note_md]; vault_folders := ["daily/2024-01-01.md"];
     leaf_pinned := false; has_view := true; trace := [] |}.

(** ** Proof automation *)

(** Closes a goal about a handler whose final world is explicit: the
    [maxLength] in memory is kept, and every [SaveData] of the trace is
    either an old one or a snapshot of the current data. *)
Ltac saves_of_current_data :=
  split;
  [ reflexivity
  | simpl; intros d Hd;
    repeat (destruct Hd as [Hd|Hd];
            [ try discriminate; injection Hd as <-; right; reflexivity | ]);
    left; exact Hd ].

(** * Properties *)

(** ** Worlds *)

Lemma add_trace_nil w : add_trace [] w = w.
Proof. destruct w; reflexivity. Qed.

Lemma add_trace_app es1 es2 w :
  add_trace es1 (add_trace es2 w) = add_trace (es1 ++ es2) w.
Proof. unfold add_trace; simpl. now rewrite app_assoc. Qed.

Lemma set_data_same w : set_data (data w) w = w.
Proof. destruct w; reflexivity. Qed.

Lemma with_recentFiles_same d : with_recentFiles (recentFiles d) d = d.
Proof. destruct d; reflexivity. Qed.

(** ** Sorting and truncation *)

Lemma sortFunc_le a b : (sortFunc a b <=? 0) = (mtime b <=? mtime a).
Proof.
  unfold sortFunc.
  destruct (Z.gtb_spec (mtime a) (mtime b)), (Z.ltb_spec (mtime a) (mtime b)),
    (Z.leb_spec (mtime b) (mtime a)); simpl; try reflexivity; lia.
Qed.

Section Sort.
Context {A : Type} (cmp : A -> A -> Z).

Lemma sort_insert_perm x l : Permutation (sort_insert cmp x l) (x :: l).
Proof.
  induction l as [|y l IH]; simpl.
  - apply Permutation_refl.
  - destruct (cmp x y <=? 0).
    + apply Permutation_refl.
    + eapply perm_trans; [apply perm_skip, IH | apply perm_swap].
Qed.

Lemma array_sort_perm l : Permutation (array_sort cmp l) l.
Proof.
  induction l as [|x l IH]; simpl.
  - constructor.
  - eapply perm_trans; [apply sort_insert_perm | now apply perm_skip].
Qed.

Lemma array_sort_length l : length (array_sort cmp l) = length l.
Proof. apply Permutation_length, array_sort_perm. Qed.

End Sort.

Lemma sort_insert_sorted x l :
  StronglySorted newer_or_equal l ->
  StronglySorted newer_or_equal (sort_insert sortFunc x l).
Proof.
  induction 1 as [|y l Hs IH Hy]; simpl.
  - repeat constructor.
  - rewrite sortFunc_le. destruct (Z.leb_spec (mtime y) (mtime x)) as [Hle|Hlt].
    + constructor; [now constructor|].
      constructor; [exact Hle|].
      eapply Forall_impl; [|exact Hy].
      unfold newer_or_equal; intros; lia.
    + constructor; [exact IH|].
      eapply Permutation_Forall; [apply Permutation_sym, sort_insert_perm|].
      constructor; [unfold newer_or_equal; lia | exact Hy].
Qed.

Lemma array_sort_sorted l : StronglySorted newer_or_equal (array_sort sortFunc l).
Proof.
  induction l as [|x l IH]; simpl; [constructor | now apply sort_insert_sorted].
Qed.

Lemma sort_insert_stable t x l :
  modified_at t (sort_insert sortFunc x l) = modified_at t (x :: l).
Proof.
  unfold modified_at.
  induction l as [|y l IH]; simpl; [reflexivity|].
  rewrite sortFunc_le. destruct (Z.leb_spec (mtime y) (mtime x)) as [Hle|Hlt].
  - reflexivity.
  - simpl. rewrite IH. simpl.
    destruct (Z.eqb_spec (mtime x) t), (Z.eqb_spec (mtime y) t);
      try reflexivity; lia.
Qed.

Lemma array_sort_stable t l :
  modified_at t (array_sort sortFunc l) = modified_at t l.
Proof.
  induction l as [|x l IH]; simpl; [reflexivity|].
  rewrite sort_insert_stable. unfold modified_at in *; simpl. now rewrite IH.
Qed.

(** The sorting algorithm does not matter: a list sorted newest first
    that keeps, for every time, the files of that time in their order is
    determined. *)
Lemma stable_sorted_unique (l1 l2 : list RecentFileInfo) :
  StronglySorted newer_or_equal l1 ->
  StronglySorted newer_or_equal l2 ->
  (forall t, modified_at t l1 = modified_at t l2) ->
  l1 = l2.
Proof.
  intros H1. revert l2. induction H1 as [|x l1 Hs1 IH Hx]; intros l2 H2 Heq.
  - destruct l2 as [|y l2]; [reflexivity|].
    specialize (Heq (mtime y)). unfold modified_at in Heq. simpl in Heq.
    rewrite Z.eqb_refl in Heq. discriminate.
  - destruct H2 as [|y l2 Hs2 Hy].
    + specialize (Heq (mtime x)). unfold modified_at in Heq. simpl in Heq.
      rewrite Z.eqb_refl in Heq. discriminate.
    + assert (Hhead : forall (a b : RecentFileInfo) la lb,
                 Forall (newer_or_equal a) la ->
                 (forall t, modified_at t (a :: la) = modified_at t (b :: lb)) ->
                 mtime b <= mtime a).
      { intros a b la lb Ha Hab. specialize (Hab (mtime b)).
        unfold modified_at in Hab. simpl in Hab. rewrite Z.eqb_refl in Hab.
        assert (Hin : In b (filter (fun f => mtime f =? mtime b) (a :: la))).
        { simpl. rewrite Hab. now left. }
        apply filter_In in Hin as [[<-|Hin] _]; [lia|].
        rewrite Forall_forall in Ha. apply (Ha b Hin). }
      assert (Hxy : mtime x = mtime y).
      { pose proof (Hhead x y l1 l2 Hx Heq).
        pose proof (Hhead y x l2 l1 Hy (fun t => eq_sym (Heq t))). lia. }
      assert (x = y) as <-.
      { specialize (Heq (mtime x)). unfold modified_at in Heq. simpl in Heq.
        rewrite <- Hxy, Z.eqb_refl in Heq. now injection Heq. }
      f_equal. apply IH; [exact Hs2|].
      intros t. specialize (Heq t). unfold modified_at in *. simpl in Heq.
      destruct (mtime x =? t); [now injection Heq | exact Heq].
Qed.

(** So [array_sort] returns the list any stable sort by [sortFunc] does. *)
Lemma array_sort_unique (l sorted : list RecentFileInfo) :
  StronglySorted newer_or_equal sorted ->
  (forall t, modified_at t sorted = modified_at t l) ->
  sorted = array_sort sortFunc l.
Proof.
  intros Hs Hst. apply stable_sorted_unique; [exact Hs | apply array_sort_sorted|].
  intros t. now rewrite Hst, array_sort_stable.
Qed.

Lemma array_slice_prefix {A} (l : list A) n :
  0 <= n -> array_slice l 0 n = firstn (Z.to_nat n) l.
Proof.
  intros Hn. unfold array_slice.
  replace (0 <? 0) with false by reflexivity.
  destruct (Z.ltb_spec n 0) as [?|_]; [lia|].
  rewrite (Z.min_l 0) by lia. simpl skipn.
  destruct (Z.le_gt_cases n (Z.of_nat (length l))) as [Hle|Hgt].
  - rewrite Z.min_l by lia. f_equal. lia.
  - rewrite Z.min_r by lia.
    replace (Z.to_nat (Z.max (Z.of_nat (length l) - 0) 0)) with (length l) by lia.
    rewrite firstn_all. symmetry. apply firstn_all2. lia.
Qed.

Lemma array_slice_drop_last {A} (l : list A) n :
  n < 0 -> array_slice l 0 n = firstn (length l - Z.to_nat (- n)) l.
Proof.
  intros Hn. unfold array_slice.
  replace (0 <? 0) with false by reflexivity.
  destruct (Z.ltb_spec n 0) as [_|?]; [|lia].
  rewrite (Z.min_l 0) by lia. simpl skipn. f_equal. lia.
Qed.

Lemma firstn_incl {A} n (l : list A) : incl (firstn n l) l.
Proof.
  revert n. induction l as [|x l IH]; intros [|n]; simpl; intros y Hy;
    try contradiction.
  destruct Hy as [->|Hy]; [now left | right; eapply IH, Hy].
Qed.

Lemma firstn_sorted {A} (R : A -> A -> Prop) n l :
  StronglySorted R l -> StronglySorted R (firstn n l).
Proof.
  intros Hs. revert n. induction Hs as [|x l Hs IH Hx]; intros [|n]; simpl;
    try constructor.
  - apply IH.
  - apply Forall_forall. intros y Hy. rewrite Forall_forall in Hx.
    apply Hx. eapply firstn_incl, Hy.
Qed.

Lemma array_slice_from_0 {A} (l : list A) n :
  exists k, array_slice l 0 n = firstn k l.
Proof.
  destruct (Z.lt_ge_cases n 0).
  - eexists. now apply array_slice_drop_last.
  - eexists. apply array_slice_prefix. lia.
Qed.

Lemma firstn_NoDup {A} n (l : list A) : NoDup l -> NoDup (firstn n l).
Proof.
  intros H. rewrite <- (firstn_skipn n l) in H.
  eapply NoDup_app_remove_r, H.
Qed.

(** ** [updateData] *)

Lemma updateData_run w :
  updateData w =
  (Normal tt,
   let d := with_recentFiles (recompute (vault_files w) (maxLength (data w))) (data w) in
   add_trace [SaveData d; VaultGetFiles] (set_data d w)).
Proof. reflexivity. Qed.

Lemma updateData_recentFiles w :
  recentFiles (data (exec updateData w)) =
  recompute (vault_files w) (maxLength (data w)).
Proof. reflexivity. Qed.

(** The recomputed list is sorted by modification time, newest first. *)
Lemma recompute_sorted files m :
  StronglySorted newer_or_equal (recompute files m).
Proof.
  unfold recompute.
  destruct (array_slice_from_0 (array_sort sortFunc (map to_RecentFileInfo files))
              (or_default m defaultMaxLength)) as [k ->].
  apply firstn_sorted, array_sort_sorted.
Qed.

(** Files modified at the same time keep the order of the enumeration: the
    recomputed list is a prefix of a list that lists, for every time, the
    files of that time in enumeration order. *)
Lemma recompute_stable files m :
  exists k sorted,
    recompute files m = firstn k sorted /\
    Permutation sorted (map to_RecentFileInfo files) /\
    forall t, modified_at t sorted = modified_at t (map to_RecentFileInfo files).
Proof.
  unfold recompute.
  destruct (array_slice_from_0 (array_sort sortFunc (map to_RecentFileInfo files))
              (or_default m defaultMaxLength)) as [k ->].
  exists k, (array_sort sortFunc (map to_RecentFileInfo files)).
  split; [reflexivity|]. split; [apply array_sort_perm|].
  intros t. apply array_sort_stable.
Qed.

(** An enumeration without duplicate paths gives a list without duplicate
    paths. *)
Lemma recompute_NoDup files m :
  NoDup (map file_path files) -> NoDup (map path (recompute files m)).
Proof.
  intros H. unfold recompute.
  destruct (array_slice_from_0 (array_sort sortFunc (map to_RecentFileInfo files))
              (or_default m defaultMaxLength)) as [k ->].
  rewrite <- firstn_map. apply firstn_NoDup.
  eapply Permutation_NoDup.
  - apply Permutation_sym, Permutation_map, array_sort_perm.
  - now rewrite map_map.
Qed.

(** Every entry of the recomputed list is a file of the enumeration. *)
Lemma recompute_incl files m :
  incl (recompute files m) (map to_RecentFileInfo files).
Proof.
  unfold recompute.
  destruct (array_slice_from_0 (array_sort sortFunc (map to_RecentFileInfo files))
              (or_default m defaultMaxLength)) as [k ->].
  intros f Hf. apply firstn_incl in Hf.
  eapply Permutation_in; [apply array_sort_perm | exact Hf].
Qed.

(** Unless [maxLength] is negative, the list is no longer than the list
    length in force: [maxLength], or 40 when it is falsy. *)
Lemma recompute_length files m :
  0 <= or_default m defaultMaxLength ->
  Z.of_nat (length (recompute files m)) <= or_default m defaultMaxLength.
Proof.
  intros H. unfold recompute. rewrite array_slice_prefix by exact H.
  pose proof (firstn_le_length (Z.to_nat (or_default m defaultMaxLength))
                (array_sort sortFunc (map to_RecentFileInfo files))).
  lia.
Qed.

(** A falsy [maxLength] ([null], [NaN] or [0]) truncates as 40 does. *)
Lemma recompute_falsy files m :
  truthy m = false ->
  recompute files m =
  firstn 40 (array_sort sortFunc (map to_RecentFileInfo files)).
Proof.
  intros H. unfold recompute.
  assert (or_default m defaultMaxLength = 40) as ->.
  { destruct m as [| |z]; try reflexivity. simpl in *.
    destruct (z =? 0); [reflexivity | discriminate]. }
  now rewrite array_slice_prefix by lia.
Qed.

(** A positive [maxLength] keeps the first [maxLength] files. *)
Lemma recompute_positive files z :
  0 < z ->
  recompute files (Num z) =
  firstn (Z.to_nat z) (array_sort sortFunc (map to_RecentFileInfo files)).
Proof.
  intros H. unfold recompute. simpl.
  destruct (Z.eqb_spec z 0); [lia|].
  now rewrite array_slice_prefix by lia.
Qed.

(** A negative [maxLength] drops that many files from the end instead. *)
Lemma recompute_negative files z :
  z < 0 ->
  recompute files (Num z) =
  firstn (length files - Z.to_nat (- z))
         (array_sort sortFunc (map to_RecentFileInfo files)).
Proof.
  intros H. unfold recompute. simpl.
  destruct (Z.eqb_spec z 0); [lia|].
  rewrite array_slice_drop_last by lia.
  now rewrite array_sort_length, length_map.
Qed.

(** C9: calling [updateData] twice in succession on the same enumeration,
    with the settings unchanged, leaves the same tracked list (indeed the
    same plugin data) as calling it once. *)
Theorem updateData_idempotent (w : World) :
  data (exec (updateData ;; updateData) w) = data (exec updateData w) /\
  data (exec updateData (exec updateData w)) = data (exec updateData w) /\
  recentFiles (data (exec updateData (exec updateData w))) =
  recentFiles (data (exec updateData w)).
Proof. repeat split; reflexivity. Qed.

(** C1: the exclusion patterns are not consulted when the list is
    recomputed.  With the pattern [^daily/] in force, [updateData] on a
    vault of a daily note and another note tracks both, although
    [shouldAddFile] rejects the daily note. *)
Theorem updateData_tracks_omitted_file :
  let w' := exec updateData omitting_world in
  omittedPaths (data w') = ["^daily/"] /\
  recentFiles (data w') = [to_RecentFileInfo daily_md; to_RecentFileInfo note_md] /\
  fst (shouldAddFile (engine := Fragment.engine)
         (as_FilePath (to_RecentFileInfo daily_md)) w') = Normal false /\
  recentFiles (data (exec (pruneOmittedFiles (engine := Fragment.engine)) w')) =
    [to_RecentFileInfo note_md].
Proof. vm_compute. repeat split; reflexivity. Qed.

(** C3: a negative [maxLength] is not replaced by 40.  With [maxLength]
    at [-1] and two files in the vault, [updateData] keeps one file, where
    [maxLength] at [40] keeps both. *)
Theorem updateData_negative_maxLength :
  recentFiles (data (exec updateData negative_length_world)) =
    [to_RecentFileInfo daily_md] /\
  recentFiles (data (exec updateData forty_world)) =
    [to_RecentFileInfo daily_md; to_RecentFileInfo note_md].
Proof. split; reflexivity. Qed.

(** ** Computations *)

Lemma bind_run {A B} (m : M A) (k : A -> M B) w a w' :
  m w = (Normal a, w') -> bind m k w = k a w'.
Proof. intros H. unfold bind. now rewrite H. Qed.

(** A callback that completes normally and only writes to the console
    makes [some] and [filter] behave as their pure counterparts. *)
Section ConsoleCallbacks.
Context {A : Type} (f : A -> M bool) (g : RecentFilesData -> A -> bool).
Hypothesis f_run :
  forall x w, exists errs,
    Forall is_console_error errs /\ f x w = (Normal (g (data w) x), add_trace errs w).

Lemma array_some_run l w :
  exists errs,
    Forall is_console_error errs /\
    array_some f l w = (Normal (existsb (g (data w)) l), add_trace errs w).
Proof.
  revert w. induction l as [|x l IH]; intros w; simpl.
  - exists []. split; [constructor | now rewrite add_trace_nil].
  - destruct (f_run x w) as (e1 & He1 & Hx).
    rewrite (bind_run _ _ _ _ _ Hx).
    destruct (g (data w) x); simpl.
    + exists e1. now split.
    + destruct (IH (add_trace e1 w)) as (e2 & He2 & Hl).
      exists (e2 ++ e1). split; [now apply Forall_app|].
      rewrite Hl. now rewrite add_trace_app.
Qed.

Lemma array_filter_run l w :
  exists errs,
    Forall is_console_error errs /\
    array_filter f l w = (Normal (filter (g (data w)) l), add_trace errs w).
Proof.
  revert w. induction l as [|x l IH]; intros w; simpl.
  - exists []. split; [constructor | now rewrite add_trace_nil].
  - destruct (f_run x w) as (e1 & He1 & Hx).
    rewrite (bind_run _ _ _ _ _ Hx).
    destruct (IH (add_trace e1 w)) as (e2 & He2 & Hl).
    rewrite (bind_run _ _ _ _ _ Hl).
    exists (e2 ++ e1). split; [now apply Forall_app|].
    unfold ret. rewrite add_trace_app. simpl. reflexivity.
Qed.

End ConsoleCallbacks.

(** ** The exclusion policy *)

Section PolicyProperties.
Context {engine : RegExpEngine}.

Lemma nonempty_length (s : string) :
  (0 <? String.length s)%nat = negb (String.eqb s "").
Proof. destruct s; reflexivity. Qed.

Lemma existsb_filter {A} (keep f : A -> bool) l :
  existsb f (filter keep l) = existsb (fun x => keep x && f x) l.
Proof.
  induction l as [|x l IH]; simpl; [reflexivity|].
  destruct (keep x); simpl; now rewrite IH.
Qed.

(** The callback [fileMatchesRegex] completes normally whether or not the
    pattern compiles. *)
Lemma fileMatchesRegex_run (p pattern : string) (w : World) :
  exists errs,
    Forall is_console_error errs /\
    try_catch
      (r <- new_RegExp pattern ;; ret (RegExp_test r p))
      (fun err =>
         emit (ConsoleError ("Recent Files: Invalid regex pattern: " ++ pattern)) ;;
         ret false) w
    = (Normal (pattern_matches pattern p), add_trace errs w).
Proof.
  unfold try_catch, bind, new_RegExp, pattern_matches, ret, emit.
  destruct (RegExp_new pattern) as [r|err].
  - exists []. split; [constructor | now rewrite add_trace_nil].
  - eexists. split; [|reflexivity]. repeat constructor. now eexists.
Qed.

(** [shouldAddFile] computes [isAllowed] on the current patterns. *)
Lemma shouldAddFile_run (file : FilePath) (w : World) :
  exists errs,
    Forall is_console_error errs /\
    shouldAddFile file w =
    (Normal (isAllowed (fp_path file) (omittedPaths (data w))), add_trace errs w).
Proof.
  destruct (array_some_run _ (fun _ pattern => pattern_matches pattern (fp_path file))
              (fun pattern w => fileMatchesRegex_run (fp_path file) pattern w)
              (filter (fun p => (0 <? String.length p)%nat) (omittedPaths (data w))) w)
    as (errs & Herrs & Hrun).
  exists errs. split; [exact Herrs|].
  unfold shouldAddFile.
  rewrite (bind_run get_data _ w (data w) w eq_refl).
  rewrite (bind_run _ _ _ _ _ Hrun).
  unfold ret, isAllowed. rewrite existsb_filter.
  do 3 f_equal. clear Hrun. induction (omittedPaths (data w)) as [|pattern rest IH]; simpl;
    [reflexivity | now rewrite nonempty_length, IH].
Qed.

Lemma isAllowed_false (p : string) (patterns : list string) :
  isAllowed p patterns = false <->
  exists pattern r,
    In pattern patterns /\ pattern <> "" /\
    RegExp_new pattern = Normal r /\ RegExp_test r p = true.
Proof.
  unfold isAllowed. rewrite negb_false_iff, existsb_exists. split.
  - intros (pattern & Hin & Hm). apply andb_prop in Hm as [Hne Hm].
    unfold pattern_matches in Hm.
    destruct (RegExp_new pattern) as [r|] eqn:Hnew; [|discriminate].
    exists pattern, r. repeat split; try assumption.
    intros ->. discriminate.
  - intros (pattern & r & Hin & Hne & Hnew & Ht).
    exists pattern. split; [exact Hin|].
    unfold pattern_matches. rewrite Hnew, Ht.
    destruct (String.eqb_spec pattern ""); [contradiction | reflexivity].
Qed.

(** C4: for every file and every list of patterns, [shouldAddFile]
    completes normally (it never throws), only writes to the console, and
    answers [false] exactly when some pattern of the list is not empty,
    compiles, and matches the path: an empty pattern is ignored and a
    pattern that fails to compile is skipped without stopping the
    evaluation of the others. *)
Theorem shouldAddFile_false_iff_some_pattern_matches (file : FilePath) (w : World) :
  exists (b : bool) (errs : list Effect),
    shouldAddFile file w = (Normal b, add_trace errs w) /\
    Forall is_console_error errs /\
    (b = false <->
     exists pattern r,
       In pattern (omittedPaths (data w)) /\ pattern <> "" /\
       RegExp_new pattern = Normal r /\ RegExp_test r (fp_path file) = true).
Proof.
  destruct (shouldAddFile_run file w) as (errs & Herrs & Hrun).
  exists (isAllowed (fp_path file) (omittedPaths (data w))), errs.
  repeat split; try assumption; apply isAllowed_false.
Qed.

End PolicyProperties.

(** ** Pruning *)

Lemma filter_idempotent {A} (f : A -> bool) l : filter f (filter f l) = filter f l.
Proof.
  induction l as [|x l IH]; simpl; [reflexivity|].
  destruct (f x) eqn:Hx; simpl; [rewrite Hx; now f_equal | exact IH].
Qed.

Lemma filter_length_le {A} (f : A -> bool) l : (length (filter f l) <= length l)%nat.
Proof.
  induction l as [|x l IH]; simpl; [lia|]. destruct (f x); simpl; lia.
Qed.

Lemma filter_same_length {A} (f : A -> bool) l :
  length (filter f l) = length l -> filter f l = l.
Proof.
  induction l as [|x l IH]; simpl; [reflexivity|].
  destruct (f x); simpl; intros H.
  - f_equal. apply IH. lia.
  - pose proof (filter_length_le f l). lia.
Qed.

Section Pruning.
Context {engine : RegExpEngine}.

Lemma pruneOmittedFiles_run (w : World) :
  exists errs,
    Forall is_console_error errs /\
    pruneOmittedFiles w =
    (Normal tt,
     let d := with_recentFiles
                (filter (fun f => isAllowed (path f) (omittedPaths (data w)))
                        (recentFiles (data w)))
                (data w) in
     add_trace (SaveData d :: errs) (set_data d w)).
Proof.
  destruct (array_filter_run
              (fun f => shouldAddFile (as_FilePath f))
              (fun d f => isAllowed (path f) (omittedPaths d))
              (fun f w => shouldAddFile_run (as_FilePath f) w)
              (recentFiles (data w)) w) as (errs & Herrs & Hrun).
  exists errs. split; [exact Herrs|].
  unfold pruneOmittedFiles.
  rewrite (bind_run get_data _ w (data w) w eq_refl).
  rewrite (bind_run _ _ _ _ _ Hrun).
  reflexivity.
Qed.

(** C10: [pruneOmittedFiles] keeps exactly the entries that
    [shouldAddFile] accepts under the current patterns, with their fields
    and in their order, adds none, and pruning again changes nothing. *)
Theorem pruneOmittedFiles_keeps_allowed (w : World) :
  let w' := exec pruneOmittedFiles w in
  fst (pruneOmittedFiles w) = Normal tt /\
  data w' =
    with_recentFiles
      (filter (fun f => isAllowed (path f) (omittedPaths (data w))) (recentFiles (data w)))
      (data w) /\
  (forall f, In f (recentFiles (data w')) <->
             In f (recentFiles (data w)) /\
             fst (shouldAddFile (as_FilePath f) w) = Normal true) /\
  data (exec pruneOmittedFiles w') = data w'.
Proof.
  destruct (pruneOmittedFiles_run w) as (errs & _ & Hrun).
  destruct (pruneOmittedFiles_run (exec pruneOmittedFiles w)) as (errs' & _ & Hrun').
  unfold exec in *. rewrite Hrun' at 1. rewrite Hrun. simpl.
  split; [reflexivity|]. split; [reflexivity|]. split; [intros f; split|].
  - intros Hf. apply filter_In in Hf as [Hin Hf]. split; [exact Hin|].
    destruct (shouldAddFile_run (as_FilePath f) w) as (e & _ & ->). simpl. now rewrite Hf.
  - intros [Hin Hf]. apply filter_In. split; [exact Hin|].
    destruct (shouldAddFile_run (as_FilePath f) w) as (e & _ & He).
    rewrite He in Hf. simpl in Hf. now injection Hf.
  - unfold with_recentFiles; simpl. now rewrite filter_idempotent.
Qed.

End Pruning.

(** ** Renaming *)

Lemma array_find_index_none {A} (p : A -> bool) l :
  (forall x, In x l -> p x = false) -> array_find_index p l = None.
Proof.
  induction l as [|x l IH]; simpl; intros H; [reflexivity|].
  rewrite (H x (or_introl eq_refl)), IH; [reflexivity|].
  intros y Hy. apply H. now right.
Qed.

Lemma array_find_index_first {A} (p : A -> bool) pre e post :
  (forall x, In x pre -> p x = false) -> p e = true ->
  array_find_index p (pre ++ e :: post) = Some (length pre).
Proof.
  induction pre as [|x pre IH]; simpl; intros Hpre He.
  - now rewrite He.
  - rewrite (Hpre x (or_introl eq_refl)), IH; [reflexivity| |exact He].
    intros y Hy. apply Hpre. now right.
Qed.

Lemma update_at_middle {A} (f : A -> A) pre e post :
  update_at (length pre) f (pre ++ e :: post) = pre ++ f e :: post.
Proof. induction pre as [|x pre IH]; simpl; [reflexivity | now rewrite IH]. Qed.

(** The specification's example: the name [b.md] gives the base name [b]. *)
Example trimExtension_b_md :
  trimExtension "b.md" = "b" /\
  trimExtension "archive.tar.gz" = "archive.tar" /\
  trimExtension "notes" = "notes" /\
  trimExtension ".md" = "".
Proof. repeat split. Qed.

(** C5: [handleRename] gives the first entry at the old path the file's
    new path and the base name of its new name, in place: its modification
    time, its position and every other entry are kept, in every state of
    the plugin.  With the view in place the list is then redrawn and the
    data written; before the view is created the call of
    [this.view.redraw()] throws after the entry has been updated.  When no
    entry is at the old path nothing happens at all. *)
Theorem handleRename_in_place (w : World) (file : TAbstractFile) (oldPath : string) :
  (forall pre e post,
      recentFiles (data w) = pre ++ e :: post ->
      (forall x, In x pre -> path x <> oldPath) ->
      path e = oldPath ->
      let e' := {| path := af_path file;
                   basename := trimExtension (af_name file);
                   mtime := mtime e |} in
      let d' := with_recentFiles (pre ++ e' :: post) (data w) in
      recentFiles (data (exec (handleRename file oldPath) w)) = pre ++ e' :: post /\
      handleRename file oldPath w =
      if has_view w
      then (Normal tt, add_trace [SaveData d'; Redraw (pre ++ e' :: post)] (set_data d' w))
      else (Abrupt view_undefined, set_data d' w)) /\
  ((forall x, In x (recentFiles (data w)) -> path x <> oldPath) ->
   handleRename file oldPath w = (Normal tt, w)).
Proof.
  split.
  - intros pre e post Hl Hpre He e' d'.
    assert (Hrun : handleRename file oldPath w =
                   if has_view w
                   then (Normal tt,
                         add_trace [SaveData d'; Redraw (pre ++ e' :: post)] (set_data d' w))
                   else (Abrupt view_undefined, set_data d' w)).
    { unfold handleRename.
      rewrite (bind_run get_data _ w (data w) w eq_refl).
      rewrite Hl, array_find_index_first.
      + unfold bind, set_entry, view_redraw, redraw, saveData, get_data, emit, throw.
        simpl. rewrite Hl, !update_at_middle.
        destruct (has_view w); reflexivity.
      + intros x Hx. apply String.eqb_neq. now apply Hpre.
      + now apply String.eqb_eq. }
    split; [|exact Hrun].
    unfold exec. rewrite Hrun. destruct (has_view w); reflexivity.
  - intros Hnone. unfold handleRename.
    rewrite (bind_run get_data _ w (data w) w eq_refl).
    rewrite array_find_index_none; [reflexivity|].
    intros x Hx. apply String.eqb_neq. now apply Hnone.
Qed.

Lemma handleRename_in_place_witness :
  handleRename {| af_path := "b.md"; af_name := "b.md" |} "note.md" tracking_world =
  (Normal tt,
   let l := [to_RecentFileInfo daily_md; {| path := "b.md"; basename := "b"; mtime := 100 |}] in
   let d := with_recentFiles l (data tracking_world) in
   add_trace [SaveData d; Redraw l] (set_data d tracking_world)) /\
  handleRename {| af_path := "b.md"; af_name := "b.md" |} "c.md" tracking_world =
  (Normal tt, tracking_world) /\
  handleRename {| af_path := "b.md"; af_name := "b.md" |} "note.md" before_view_world =
  (Abrupt view_undefined,
   let l := [to_RecentFileInfo daily_md; {| path := "b.md"; basename := "b"; mtime := 100 |}] in
   set_data (with_recentFiles l (data before_view_world)) before_view_world).
Proof.
  assert (Hpre : forall x, In x [to_RecentFileInfo daily_md] -> path x <> "note.md").
  { intros x [<-|[]]. discriminate. }
  split; [|split].
  - apply (proj1 (handleRename_in_place tracking_world
                    {| af_path := "b.md"; af_name := "b.md" |} "note.md")
             [to_RecentFileInfo daily_md] (to_RecentFileInfo note_md) []
             eq_refl Hpre eq_refl).
  - apply (proj2 (handleRename_in_place tracking_world
                    {| af_path := "b.md"; af_name := "b.md" |} "c.md")).
    intros x [<-|[<-|[]]]; discriminate.
  - apply (proj1 (handleRename_in_place before_view_world
                    {| af_path := "b.md"; af_name := "b.md" |} "note.md")
             [to_RecentFileInfo daily_md] (to_RecentFileInfo note_md) []
             eq_refl Hpre eq_refl).
Defined.

(** ** Deleting *)

Lemma handleDelete_run (w : World) (file : TAbstractFile) :
  let l := recentFiles (data w) in
  let l' := without_path (af_path file) l in
  let d' := with_recentFiles l' (data w) in
  handleDelete file w =
  if Nat.eqb (length l) (length l') then (Normal tt, set_data d' w)
  else if has_view w
       then (Normal tt, add_trace [SaveData d'; Redraw l'] (set_data d' w))
       else (Abrupt view_undefined, set_data d' w).
Proof.
  intros l l' d'.
  unfold handleDelete, bind, get_data, set_recentFiles, view_redraw, throw. simpl.
  fold l. change (filter _ l) with l'.
  destruct (Nat.eqb (length l) (length l')); [reflexivity|].
  simpl. destruct (has_view w); reflexivity.
Qed.

Lemma handleDelete_recentFiles (w : World) (file : TAbstractFile) :
  recentFiles (data (exec (handleDelete file) w)) =
  without_path (af_path file) (recentFiles (data w)).
Proof.
  unfold exec. rewrite handleDelete_run. cbn zeta.
  destruct (Nat.eqb _ _); [reflexivity|]. destruct (has_view w); reflexivity.
Qed.

Lemma without_path_same_length (p : string) (l : list RecentFileInfo) :
  length l = length (without_path p l) <-> without_path p l = l.
Proof.
  split; intros H.
  - apply filter_same_length. now symmetry.
  - now rewrite H.
Qed.

(** C6: the claim fails before the view is created.  After [onload], with
    two tracked notes and no view yet, the deletion of one of them removes
    its entry, then [this.view.redraw()] throws and [saveData] is never
    reached: the list has changed and nothing is written. *)
Theorem handleDelete_before_view_writes_nothing :
  let file := {| af_path := "note.md"; af_name := "note.md" |} in
  has_view before_view_world = false /\
  recentFiles (data before_view_world) =
    [to_RecentFileInfo daily_md; to_RecentFileInfo note_md] /\
  handleDelete file before_view_world =
    (Abrupt view_undefined,
     set_data (with_recentFiles [to_RecentFileInfo daily_md] (data before_view_world))
              before_view_world) /\
  recentFiles (data (exec (handleDelete file) before_view_world)) =
    [to_RecentFileInfo daily_md] /\
  ~ persists (handleDelete file) before_view_world.
Proof.
  cbn zeta. repeat split.
  intros [d Hd]. exact Hd.
Qed.

(** X27: in every state [handleDelete] keeps exactly the entries at other
    paths, unchanged and in order, and when that is the whole list
    nothing happens at all.  When the list changes and the view is in
    place, the list is redrawn and the data written once; before the view
    is created the handler stops at [this.view.redraw()] and writes
    nothing.  So the data are written exactly when the list has changed
    and the view exists. *)
Theorem handleDelete_removes_path (w : World) (file : TAbstractFile) :
  let l := recentFiles (data w) in
  let l' := without_path (af_path file) l in
  let d' := with_recentFiles l' (data w) in
  recentFiles (data (exec (handleDelete file) w)) = l' /\
  (l' = l -> handleDelete file w = (Normal tt, w)) /\
  (l' <> l -> has_view w = true ->
   handleDelete file w =
   (Normal tt, add_trace [SaveData d'; Redraw l'] (set_data d' w))) /\
  (l' <> l -> has_view w = false ->
   handleDelete file w = (Abrupt view_undefined, set_data d' w)) /\
  (persists (handleDelete file) w <-> l' <> l /\ has_view w = true).
Proof.
  intros l l' d'.
  pose proof (without_path_same_length (af_path file) l) as Hlen. fold l' in Hlen.
  split; [apply handleDelete_recentFiles|].
  split; [|split; [|split]].
  - intros H. rewrite handleDelete_run. fold l l' d'.
    destruct (Nat.eqb_spec (length l) (length l')) as [_|E];
      [|contradiction E; now apply Hlen].
    unfold d'. rewrite H. unfold l.
    now rewrite with_recentFiles_same, set_data_same.
  - intros H Hv. rewrite handleDelete_run. fold l l' d'.
    destruct (Nat.eqb_spec (length l) (length l')) as [E|_];
      [apply Hlen in E; contradiction|].
    now rewrite Hv.
  - intros H Hv. rewrite handleDelete_run. fold l l' d'.
    destruct (Nat.eqb_spec (length l) (length l')) as [E|_];
      [apply Hlen in E; contradiction|].
    now rewrite Hv.
  - unfold persists, emitted, exec. rewrite handleDelete_run. cbn zeta.
    change (recentFiles (data (clear_trace w))) with l. fold l'.
    change (has_view (clear_trace w)) with (has_view w).
    destruct (Nat.eqb_spec (length l) (length l')) as [E|E].
    + split; [intros [d []] | intros [H _]; apply Hlen in E; contradiction].
    + destruct (has_view w).
      * split; [intros _; split; [|reflexivity] | intros _; eexists; left; reflexivity].
        intros H. apply E. now apply Hlen.
      * split; [intros [d []] | intros [_ H]; discriminate].
Qed.

Lemma handleDelete_removes_path_witness :
  handleDelete {| af_path := "note.md"; af_name := "note.md" |} tracking_world =
  (Normal tt,
   let d := with_recentFiles [to_RecentFileInfo daily_md] (data tracking_world) in
   add_trace [SaveData d; Redraw [to_RecentFileInfo daily_md]] (set_data d tracking_world)) /\
  handleDelete {| af_path := "gone.md"; af_name := "gone.md" |} tracking_world =
  (Normal tt, tracking_world) /\
  handleDelete {| af_path := "note.md"; af_name := "note.md" |} before_view_world =
  (Abrupt view_undefined,
   set_data (with_recentFiles [to_RecentFileInfo daily_md] (data before_view_world))
            before_view_world).
Proof.
  split; [|split].
  - apply (proj1 (proj2 (proj2 (handleDelete_removes_path tracking_world
                                  {| af_path := "note.md"; af_name := "note.md" |})))).
    + discriminate.
    + reflexivity.
  - apply (proj1 (proj2 (handleDelete_removes_path tracking_world
                           {| af_path := "gone.md"; af_name := "gone.md" |}))).
    reflexivity.
  - apply (proj1 (proj2 (proj2 (proj2 (handleDelete_removes_path before_view_world
                                  {| af_path := "note.md"; af_name := "note.md" |}))))).
    + discriminate.
    + reflexivity.
Defined.

(** ** Opening a tracked file *)

Lemma getAbstractFileByPath_None (w : World) (p : string) :
  getAbstractFileByPath w p = None <->
  ~ In p (map file_path (vault_files w)) /\ ~ In p (vault_folders w).
Proof.
  unfold getAbstractFileByPath.
  destruct (existsb (fun f => String.eqb (file_path f) p) (vault_files w)) eqn:Ef;
    [|destruct (existsb (fun d => String.eqb d p) (vault_folders w)) eqn:Ed]; simpl.
  - split; [discriminate|]. intros [Hf _]. exfalso. apply Hf.
    apply existsb_exists in Ef as (f & Hin & Heq). apply String.eqb_eq in Heq.
    apply in_map_iff. now exists f.
  - split; [discriminate|]. intros [_ Hd]. exfalso. apply Hd.
    apply existsb_exists in Ed as (d & Hin & Heq). apply String.eqb_eq in Heq.
    now subst d.
  - split; [intros _ | reflexivity]. split.
    + intros Hin. apply in_map_iff in Hin as (f & Heq & Hin).
      assert (E : existsb (fun f => String.eqb (file_path f) p) (vault_files w) = true).
      { apply existsb_exists. exists f. split; [exact Hin | now apply String.eqb_eq]. }
      congruence.
    + intros Hin.
      assert (E : existsb (fun d => String.eqb d p) (vault_folders w) = true).
      { apply existsb_exists. exists p. split; [exact Hin | apply String.eqb_refl]. }
      congruence.
Qed.

(** C7, as the claim states it, fails when a folder has the path of a
    tracked file that is gone: the path is not among the files of the
    vault, and yet the entry stays ([getAbstractFileByPath] finds the
    folder, and [focusFile] opens it). *)
Lemma focusFile_folder_at_path_keeps_entry :
  ~ (~ In (path (to_RecentFileInfo daily_md)) (map file_path (vault_files folder_world)) ->
     recentFiles (data (exec (focusFile (to_RecentFileInfo daily_md) false) folder_world)) =
     without_path (path (to_RecentFileInfo daily_md)) (recentFiles (data folder_world))).
Proof.
  intros H.
  assert (Habsent : ~ In (path (to_RecentFileInfo daily_md))
                         (map file_path (vault_files folder_world))).
  { intros [E|[]]. discriminate. }
  specialize (H Habsent). discriminate.
Qed.

(** What [focusFile] does there: it opens the folder and removes nothing. *)
Example focusFile_opens_folder :
  focusFile (to_RecentFileInfo daily_md) false folder_world =
  (Normal tt,
   add_trace [LeafOpenFile "daily/2024-01-01.md" MostRecentLeaf] folder_world).
Proof. reflexivity. Qed.

(** C7, amended: when the vault has neither a file nor a folder at the
    path of the clicked entry, [focusFile] completes normally; it shows
    the notice, removes every entry at that path and keeps the other
    entries as they are, writes the data and redraws the list. *)
Theorem focusFile_missing_file (w : World) (file : RecentFileInfo) (shouldSplit : bool) :
  ~ In (path file) (map file_path (vault_files w)) ->
  ~ In (path file) (vault_folders w) ->
  let l' := without_path (path file) (recentFiles (data w)) in
  let d' := with_recentFiles l' (data w) in
  focusFile file shouldSplit w =
  (Normal tt,
   add_trace [Redraw l'; SaveData d'; ShowNotice "Cannot find a file with that name"]
             (set_data d' w)).
Proof.
  intros Hf Hd l' d'. unfold focusFile.
  rewrite (proj2 (getAbstractFileByPath_None w (path file)) (conj Hf Hd)). reflexivity.
Qed.

Lemma focusFile_missing_file_witness :
  focusFile (to_RecentFileInfo daily_md) false stale_world =
  (Normal tt,
   let d := with_recentFiles [to_RecentFileInfo note_md] (data stale_world) in
   add_trace [Redraw [to_RecentFileInfo note_md]; SaveData d;
              ShowNotice "Cannot find a file with that name"]
             (set_data d stale_world)).
Proof.
  apply (focusFile_missing_file stale_world (to_RecentFileInfo daily_md) false).
  - intros [E|[]]. discriminate.
  - intros [].
Defined.

(** A file that is still in the vault is opened and the list untouched. *)
Lemma focusFile_present_file (w : World) (file : RecentFileInfo) (shouldSplit : bool) target :
  getAbstractFileByPath w (path file) = Some target ->
  exists leaf, focusFile file shouldSplit w =
               (Normal tt, add_trace [LeafOpenFile target leaf] w).
Proof.
  intros H. unfold focusFile. rewrite H. eexists. reflexivity.
Qed.

(** ** The editor-change and file-open handlers *)

Lemma already_first_test (p : string) (w : World) :
  already_first p w <->
  ((0 <? length (recentFiles (data w)))%nat
   && match nth_error (recentFiles (data w)) 0 with
      | Some first => String.eqb p (path first)
      | None => false
      end) = true.
Proof.
  unfold already_first. destruct (recentFiles (data w)) as [|first rest]; simpl.
  - split; [intros (f & r & H & _); discriminate | discriminate].
  - rewrite String.eqb_eq. split.
    + intros (f & r & H & Hp). now injection H as <- <-.
    + intros ->. now exists first, rest.
Qed.

Lemma update_run (p : string) (w : World) :
  (already_first p w -> update (Some p) w = (Normal tt, w)) /\
  (~ already_first p w ->
   update (Some p) w =
   (Normal tt,
    let d := with_recentFiles (recompute (vault_files w) (maxLength (data w))) (data w) in
    add_trace [Redraw (recentFiles d); SaveData d; VaultGetFiles] (set_data d w))).
Proof.
  rewrite already_first_test. unfold update.
  rewrite (bind_run get_data _ w (data w) w eq_refl).
  destruct (_ && _); split; intros H; try reflexivity; try discriminate.
  contradiction H. reflexivity.
Qed.

(** C2, as the claim states it, fails for the file-open handler: with an
    empty list the opened file is not the first entry, and yet the vault
    is not enumerated. *)
Lemma on_file_open_never_enumerates :
  ~ (enumerates (on_file_open (Some "note.md")) (fresh_world [note_md]) <->
     ~ already_first "note.md" (fresh_world [note_md])).
Proof.
  intros [_ H].
  assert (Hnot : ~ already_first "note.md" (fresh_world [note_md])).
  { intros (first & rest & Hl & _). discriminate. }
  destruct (H Hnot) as [E|[]]. discriminate.
Qed.

(** C2, amended: the editor-change handler enumerates the vault and
    recomputes the list exactly when the edited file is not already the
    first entry, and otherwise leaves the whole world as it is; the
    file-open handler never enumerates: it redraws the list and changes
    nothing else. *)
Theorem update_recomputes_unless_first (w : World) (p : string) :
  (enumerates (update (Some p)) w <-> ~ already_first p w) /\
  (already_first p w -> update (Some p) w = (Normal tt, w)) /\
  (~ already_first p w ->
   update (Some p) w =
   (Normal tt,
    let d := with_recentFiles (recompute (vault_files w) (maxLength (data w))) (data w) in
    add_trace [Redraw (recentFiles d); SaveData d; VaultGetFiles] (set_data d w))) /\
  on_file_open (Some p) w = (Normal tt, add_trace [Redraw (recentFiles (data w))] w) /\
  ~ enumerates (on_file_open (Some p)) w.
Proof.
  destruct (update_run p w) as [Hfirst Hother].
  split; [|split; [exact Hfirst | split; [exact Hother | split; [reflexivity|]]]].
  - destruct (update_run p (clear_trace w)) as [Hfirst' Hother'].
    unfold enumerates, emitted, exec. split.
    + intros Hin Ha. rewrite Hfirst' in Hin; [exact Hin | exact Ha].
    + intros Hn. rewrite Hother'; [|exact Hn]. simpl. auto.
  - unfold enumerates, emitted, exec. simpl. intros [E|[]]. discriminate.
Qed.

Lemma update_recomputes_unless_first_witness :
  update (Some "daily/2024-01-01.md") tracking_world = (Normal tt, tracking_world) /\
  update (Some "note.md") tracking_world =
  (Normal tt,
   let d := data tracking_world in
   add_trace [Redraw (recentFiles d); SaveData d; VaultGetFiles] tracking_world).
Proof.
  split.
  - apply (proj1 (proj2 (update_recomputes_unless_first tracking_world "daily/2024-01-01.md"))).
    now exists (to_RecentFileInfo daily_md), [to_RecentFileInfo note_md].
  - apply (proj1 (proj2 (proj2 (update_recomputes_unless_first tracking_world "note.md")))).
    intros (first & rest & Hl & Hp). injection Hl as <- _. discriminate.
Defined.

(** ** Persistence of [maxLength] *)

(** [saveData] writes the plugin's data as it is. *)
Lemma saveData_run (w : World) :
  saveData w = (Normal tt, add_trace [SaveData (data w)] w).
Proof. reflexivity. Qed.

(** What [loadData] leaves in memory when the stored [maxLength] is unset. *)
Lemma loadData_unset (stored : option StoredData) (w : World) :
  maxLength_unset stored ->
  maxLength (data (exec (loadData stored) w)) = Null /\
  trace (exec (loadData stored) w) =
    ConsoleLog "Recent Files: maxLength is not set, using default (40)" :: trace w.
Proof.
  intros H. unfold exec, loadData, bind, put_data, get_data. simpl.
  assert (E : maxLength (Object_assign DEFAULT_DATA stored) = Null).
  { destruct stored as [s|]; [|reflexivity]. simpl in *.
    destruct H as [-> | ->]; reflexivity. }
  rewrite E. simpl. now split.
Qed.

Section Persistence.
Context {engine : RegExpEngine}.

(** No handler but the blur handler of the list-length field changes
    [maxLength], and whatever a handler writes carries the [maxLength] in
    memory. *)
Lemma handle_keeps_maxLength (ev : Event) (w : World) :
  ~ edits_maxLength ev ->
  maxLength (data (exec (handle ev) w)) = maxLength (data w) /\
  (forall d, In (SaveData d) (trace (exec (handle ev) w)) ->
             In (SaveData d) (trace w) \/ maxLength d = maxLength (data w)).
Proof.
  intros Hev. destruct ev as [file|info|file oldPath|file|file split| |value|parsed|parsed
                              |value|files folders|pinned| ];
    unfold exec, handle, of_view.
  - destruct (has_view w); saves_of_current_data.
  - destruct (has_view w); [|saves_of_current_data].
    unfold update. rewrite (bind_run get_data _ w (data w) w eq_refl).
    match goal with |- context [if ?c then _ else _] => destruct c end;
      saves_of_current_data.
  - unfold handleRename. rewrite (bind_run get_data _ w (data w) w eq_refl).
    destruct (array_find_index _ _); [|saves_of_current_data].
    unfold bind, set_entry, view_redraw, throw. simpl.
    destruct (has_view w); saves_of_current_data.
  - rewrite handleDelete_run. cbn zeta.
    destruct (Nat.eqb _ _); [|destruct (has_view w)]; saves_of_current_data.
  - destruct (has_view w); [|saves_of_current_data].
    unfold focusFile. destruct (getAbstractFileByPath w (path file));
      saves_of_current_data.
  - destruct (has_view w); saves_of_current_data.
  - unfold omittedPaths_onblur.
    rewrite (bind_run get_data _ w (data w) w eq_refl).
    rewrite (bind_run (put_data _) _ w tt _ eq_refl).
    destruct (pruneOmittedFiles_run
                (set_data (with_omittedPaths (split_lines value) (data w)) w))
      as (errs & Herrs & Hrun).
    rewrite (bind_run _ _ _ _ _ Hrun).
    assert (Hsaves : forall d,
               In (SaveData d)
                  (SaveData
                     (with_recentFiles
                        (filter (fun f => isAllowed (path f) (split_lines value))
                                (recentFiles (data w)))
                        (with_omittedPaths (split_lines value) (data w)))
                   :: errs ++ trace w) ->
               In (SaveData d) (trace w) \/ maxLength d = maxLength (data w)).
    { intros d [Hd|Hd].
      - injection Hd as <-. now right.
      - apply in_app_or in Hd as [Hd|Hd]; [|now left].
        rewrite Forall_forall in Herrs. destruct (Herrs _ Hd) as [msg E]. discriminate. }
    unfold view_redraw, throw. cbn zeta. simpl has_view.
    destruct (has_view w); (split; [reflexivity|]); simpl.
    + intros d [Hd|Hd]; [discriminate | now apply Hsaves].
    + exact Hsaves.
  - unfold maxLength_onChange. destruct parsed as [z|]; [destruct (z <=? 0)|];
      saves_of_current_data.
  - contradiction Hev. exact I.
  - saves_of_current_data.
  - saves_of_current_data.
  - saves_of_current_data.
  - saves_of_current_data.
Qed.

Lemma run_events_keeps_maxLength (evs : list Event) (w : World) :
  Forall (fun ev => ~ edits_maxLength ev) evs ->
  maxLength (data (run_events evs w)) = maxLength (data w) /\
  (forall d, In (SaveData d) (trace (run_events evs w)) ->
             In (SaveData d) (trace w) \/ maxLength d = maxLength (data w)).
Proof.
  intros Hevs. revert w. induction Hevs as [|ev evs Hev _ IH]; intros w; simpl.
  - split; [reflexivity | now left].
  - destruct (handle_keeps_maxLength ev w Hev) as [Hm Hs].
    destruct (IH (exec (handle ev) w)) as [Hm' Hs'].
    unfold run_events in *. split; [now rewrite Hm', Hm|].
    intros d Hd. destruct (Hs' d Hd) as [Hd'|Hd'].
    + apply Hs, Hd'.
    + right. now rewrite Hd', Hm.
Qed.

(** C8: when the stored [maxLength] is unset, [loadData] leaves it unset
    in memory; the default of 40 is only applied where the list is
    truncated; and, as long as the user does not edit the list length,
    every later write of the data carries the unset value, never 40. *)
Theorem unset_maxLength_is_never_written
    (stored : option StoredData) (w0 : World) (evs : list Event) :
  maxLength_unset stored ->
  Forall (fun ev => ~ edits_maxLength ev) evs ->
  let w1 := exec (loadData stored) w0 in
  let w2 := run_events evs w1 in
  maxLength (data w1) = Null /\
  maxLength (data w2) = Null /\
  recentFiles (data (exec updateData w2)) =
    firstn 40 (array_sort sortFunc (map to_RecentFileInfo (vault_files w2))) /\
  (forall d, In (SaveData d) (trace w2) ->
             In (SaveData d) (trace w0) \/ maxLength d = Null).
Proof.
  intros Hstored Hevs w1 w2.
  destruct (loadData_unset stored w0 Hstored) as [Hm1 Ht1]. fold w1 in Hm1, Ht1.
  destruct (run_events_keeps_maxLength evs w1 Hevs) as [Hm2 Hs2]. fold w2 in Hm2, Hs2.
  rewrite Hm1 in Hm2, Hs2.
  split; [exact Hm1|]. split; [exact Hm2|]. split.
  - rewrite updateData_recentFiles, Hm2. now apply recompute_falsy.
  - intros d Hd. destruct (Hs2 d Hd) as [Hd'|Hd']; [|now right].
    rewrite Ht1 in Hd'. destruct Hd' as [Hd'|Hd']; [discriminate | now left].
Qed.

End Persistence.

Lemma unset_maxLength_is_never_written_witness :
  let w2 := run_events (engine := Fragment.engine) sample_session
              (exec (loadData None) (fresh_world [daily_md; note_md])) in
  maxLength (data w2) = Null /\
  (forall d, In (SaveData d) (trace w2) -> maxLength d = Null).
Proof.
  destruct (unset_maxLength_is_never_written (engine := Fragment.engine)
              None (fresh_world [daily_md; note_md]) sample_session)
    as (_ & Hm & _ & Hs).
  - exact I.
  - repeat constructor; intros [].
  - split; [exact Hm|].
    intros d Hd. destruct (Hs d Hd) as [[]|E]. exact E.
Defined.

(** ** The examples of the specification *)

(** [isAllowed] on the three examples of the specification, with the
    fragment engine. *)
Example isAllowed_examples :
  isAllowed (engine := Fragment.engine) "daily/2024-01-01.md" ["^daily/"] = false /\
  isAllowed (engine := Fragment.engine) "note.md" ["^daily/"] = true /\
  isAllowed (engine := Fragment.engine) "x.md" ["("] = true /\
  isAllowed (engine := Fragment.engine) "x.md" [""] = true.
Proof. repeat split. Qed.

(** A malformed pattern between two others is reported and skipped. *)
Example shouldAddFile_skips_malformed :
  shouldAddFile (engine := Fragment.engine)
    {| fp_path := "img/a.png"; fp_basename := "a" |}
    (set_data (with_omittedPaths ["^daily/"; "("; "\.png$"] DEFAULT_DATA) (fresh_world []))
  = (Normal false,
     add_trace [ConsoleError "Recent Files: Invalid regex pattern: ("]
       (set_data (with_omittedPaths ["^daily/"; "("; "\.png$"] DEFAULT_DATA)
                 (fresh_world []))).
Proof. reflexivity. Qed.

(** * Further properties of the code *)

(** ** [trimExtension] *)

Lemma no_slash_or_dot_app_dot (s ext : string) :
  no_slash_or_dot (s ++ String "."%char ext) = false.
Proof.
  induction s as [|c s IH]; simpl.
  - reflexivity.
  - rewrite IH. now rewrite andb_false_r.
Qed.

Lemma extension_tail_app_dot (s ext : string) :
  extension_tail (s ++ String "."%char ext) = false.
Proof.
  destruct s as [|c s]; [reflexivity|].
  change (extension_tail (String c s ++ String "."%char ext))
    with (no_slash_or_dot (String c s ++ String "."%char ext)).
  apply no_slash_or_dot_app_dot.
Qed.

(** X1: [trimExtension] removes the extension of a name: whatever the
    base, a final dot followed by one or more characters other than a
    slash and a dot is cut off, and nothing else. *)
Theorem trimExtension_strips_extension (base ext : string) :
  extension_tail ext = true ->
  trimExtension (base ++ String "."%char ext) = base.
Proof.
  intros Hext. induction base as [|c base IH]; simpl.
  - now rewrite Hext.
  - rewrite extension_tail_app_dot, andb_false_r. now rewrite IH.
Qed.

Lemma trimExtension_strips_extension_witness :
  trimExtension ("2024.01 notes" ++ String "."%char "md") = "2024.01 notes".
Proof.
  apply (trimExtension_strips_extension "2024.01 notes" "md"). reflexivity.
Defined.

(** X2: [trimExtension] either returns the name as it is, or the name is
    the result followed by a dot and an extension (non-empty, without a
    slash or a dot): it never removes anything but one final extension. *)
Theorem trimExtension_cuts_only_an_extension (name : string) :
  trimExtension name = name \/
  exists ext, extension_tail ext = true /\
              name = (trimExtension name ++ String "."%char ext)%string.
Proof.
  induction name as [|c rest IH]; simpl.
  - now left.
  - destruct (is_dot c && extension_tail rest) eqn:E.
    + right. apply andb_prop in E as [Hc He]. exists rest. split; [exact He|].
      unfold is_dot in Hc. apply Ascii.eqb_eq in Hc. now subst c.
    + destruct IH as [IH|(ext & He & IH)].
      * left. now rewrite IH.
      * right. exists ext. split; [exact He|]. simpl. now rewrite <- IH.
Qed.

(** ** The title shown for an entry *)

Lemma strip_prefix_app (classes : list CharClass) (p rest : string) :
  strip_prefix classes p = Some EmptyString ->
  strip_prefix classes (p ++ rest) = Some rest.
Proof.
  revert p. induction classes as [|k classes IH]; intros p; simpl.
  - intros H. injection H as ->. reflexivity.
  - destruct p as [|c p]; [discriminate|]. simpl.
    destruct (class_matches k c); [apply IH | discriminate].
Qed.

Lemma strip_prefix_split (classes : list CharClass) (s rest : string) :
  strip_prefix classes s = Some rest ->
  exists p, strip_prefix classes p = Some EmptyString /\
            String.length p = length classes /\
            s = (p ++ rest)%string.
Proof.
  revert s. induction classes as [|k classes IH]; intros s; simpl.
  - intros H. injection H as ->. now exists EmptyString.
  - destruct s as [|c s]; [discriminate|].
    destruct (class_matches k c) eqn:Hc; [|discriminate].
    intros H. destruct (IH s H) as (p & Hp & Hlen & ->).
    exists (String c p). simpl. rewrite Hc. repeat split; [exact Hp | now rewrite Hlen].
Qed.

(** X3: a base name that starts with a date and a time in the form
    [YYYY-MM-DD HH.MM - ] is shown without that prefix. *)
Theorem title_text_strips_date_prefix (p rest : string) :
  strip_prefix date_prefix p = Some EmptyString ->
  title_text (p ++ rest) = rest.
Proof.
  intros H. unfold title_text. now rewrite (strip_prefix_app _ _ rest H).
Qed.

Lemma title_text_strips_date_prefix_witness :
  title_text ("2024-01-31 09.05 - " ++ "Meeting notes") = "Meeting notes".
Proof.
  apply (title_text_strips_date_prefix "2024-01-31 09.05 - " "Meeting notes").
  reflexivity.
Defined.

(** X4: the title shown is the base name itself, or the base name without
    its first nineteen characters when these are a date prefix: only one
    prefix is removed and nothing else of the name is touched. *)
Theorem title_text_is_name_or_suffix (name : string) :
  (strip_prefix date_prefix name = None /\ title_text name = name) \/
  exists p, strip_prefix date_prefix p = Some EmptyString /\
            String.length p = 19%nat /\
            name = (p ++ title_text name)%string.
Proof.
  unfold title_text. destruct (strip_prefix date_prefix name) as [rest|] eqn:E.
  - right. destruct (strip_prefix_split _ _ _ E) as (p & Hp & Hlen & Hs).
    exists p. repeat split; assumption.
  - now left.
Qed.

(** ** The text area of the omitted patterns *)

Lemma split_lines_not_nil (s : string) : split_lines s <> [].
Proof.
  induction s as [|c s IH]; simpl; [discriminate|].
  destruct (Ascii.eqb c newline); [discriminate|].
  destruct (split_lines s); [contradiction | discriminate].
Qed.

Lemma join_lines_cons_char (c : ascii) (first : string) (rest : list string) :
  join_lines (String c first :: rest) = String c (join_lines (first :: rest)).
Proof. destruct rest; reflexivity. Qed.

(** X5: joining the lines [split('\n')] returns gives back the text: what
    the settings tab shows after a blur is what the user typed. *)
Theorem join_lines_split_lines (s : string) :
  join_lines (split_lines s) = s.
Proof.
  induction s as [|c s IH]; simpl; [reflexivity|].
  destruct (Ascii.eqb_spec c newline) as [->|_].
  - pose proof (split_lines_not_nil s) as Hne.
    destruct (split_lines s) as [|l ls]; [contradiction|].
    simpl in *. now rewrite IH.
  - pose proof (split_lines_not_nil s) as Hne.
    destruct (split_lines s) as [|l ls]; [contradiction|].
    rewrite join_lines_cons_char. now rewrite IH.
Qed.

Lemma split_lines_no_newline (s : string) :
  no_newline s = true -> split_lines s = [s].
Proof.
  induction s as [|c s IH]; simpl; [reflexivity|].
  destruct (Ascii.eqb c newline); simpl; [discriminate|].
  intros H. now rewrite (IH H).
Qed.

Lemma split_lines_app_newline (s t : string) :
  no_newline s = true ->
  split_lines (s ++ String newline t) = s :: split_lines t.
Proof.
  induction s as [|c s IH]; simpl.
  - intros _. reflexivity.
  - destruct (Ascii.eqb c newline); simpl; [discriminate|].
    intros H. now rewrite (IH H).
Qed.

(** X6: a non-empty list of patterns without line breaks survives being
    shown in the text area and read back: [split] undoes [join]. *)
Theorem split_lines_join_lines (l : list string) :
  l <> [] ->
  Forall (fun s => no_newline s = true) l ->
  split_lines (join_lines l) = l.
Proof.
  intros Hne Hl. induction Hl as [|s rest Hs Hrest IH]; [contradiction|].
  destruct rest as [|s' rest'].
  - simpl. now apply split_lines_no_newline.
  - change (join_lines (s :: s' :: rest'))
      with (s ++ String newline (join_lines (s' :: rest')))%string.
    rewrite split_lines_app_newline by exact Hs.
    f_equal. apply IH. discriminate.
Qed.

Lemma split_lines_join_lines_witness :
  split_lines (join_lines ["^daily/"; ""; "\.png$"]) = ["^daily/"; ""; "\.png$"].
Proof.
  apply (split_lines_join_lines ["^daily/"; ""; "\.png$"]).
  - discriminate.
  - repeat constructor.
Defined.

(** The lines [split('\n')] returns have no line break. *)
Lemma split_lines_lines (s : string) :
  Forall (fun line => no_newline line = true) (split_lines s).
Proof.
  induction s as [|c s IH]; simpl; [repeat constructor|].
  destruct (Ascii.eqb c newline) eqn:E.
  - constructor; [reflexivity | exact IH].
  - destruct (split_lines s) as [|l ls]; [repeat constructor; simpl; now rewrite E|].
    inversion IH as [|? ? Hl Hls]; subst.
    constructor; [simpl; now rewrite E, Hl | exact Hls].
Qed.

(** ** More on the exclusion policy *)

Section PolicyComposition.
Context {engine : RegExpEngine}.

Lemma accepts_isAllowed (w : World) (f : RecentFileInfo) :
  accepts w f = isAllowed (path f) (omittedPaths (data w)).
Proof.
  unfold accepts.
  destruct (shouldAddFile_run (as_FilePath f) w) as (errs & _ & ->). reflexivity.
Qed.

Lemma isAllowed_usable (p : string) (patterns : list string) :
  isAllowed p (filter usable_pattern patterns) = isAllowed p patterns.
Proof.
  unfold isAllowed. f_equal.
  induction patterns as [|x l IH]; simpl; [reflexivity|].
  unfold usable_pattern at 1, pattern_matches at 2.
  destruct (negb (String.eqb x "")) eqn:Hne; simpl; [|exact IH].
  destruct (RegExp_new x) as [r|err] eqn:Hnew; simpl; [|exact IH].
  rewrite Hne. unfold pattern_matches at 1. rewrite Hnew. simpl. now rewrite IH.
Qed.

(** X7: patterns that are empty or do not compile have no influence on
    the answer of [shouldAddFile]: removing them from the settings changes
    no decision (an empty line of the text area, or a line that is being
    typed and is not yet well-formed, excludes nothing). *)
Theorem shouldAddFile_ignores_unusable_patterns (w : World) (f : RecentFileInfo) :
  fst (shouldAddFile (as_FilePath f)
         (with_patterns (filter usable_pattern (omittedPaths (data w))) w)) =
  fst (shouldAddFile (as_FilePath f) w).
Proof.
  destruct (shouldAddFile_run (as_FilePath f) w) as (e1 & _ & ->).
  destruct (shouldAddFile_run (as_FilePath f)
              (with_patterns (filter usable_pattern (omittedPaths (data w))) w))
    as (e2 & _ & ->).
  simpl. now rewrite isAllowed_usable.
Qed.

(** X8: the patterns act independently of each other: a file is accepted
    under two lists of patterns put together exactly when it is accepted
    under each of them; so adding patterns never brings a file back, and
    the order of the patterns and repetitions among them do not matter. *)
Theorem shouldAddFile_patterns_compose (w : World) (f : RecentFileInfo)
    (patterns1 patterns2 : list string) :
  accepts (with_patterns (patterns1 ++ patterns2) w) f =
  accepts (with_patterns patterns1 w) f && accepts (with_patterns patterns2 w) f.
Proof.
  rewrite !accepts_isAllowed. simpl. unfold isAllowed.
  now rewrite existsb_app, negb_orb.
Qed.

Lemma omittedPaths_onblur_run (value : string) (w : World) :
  exists errs,
    Forall is_console_error errs /\
    omittedPaths_onblur value w =
    let kept := filter (fun f => isAllowed (path f) (split_lines value))
                       (recentFiles (data w)) in
    let d := with_recentFiles kept (with_omittedPaths (split_lines value) (data w)) in
    if has_view w
    then (Normal tt, add_trace (Redraw kept :: SaveData d :: errs) (set_data d w))
    else (Abrupt view_undefined, add_trace (SaveData d :: errs) (set_data d w)).
Proof.
  destruct (pruneOmittedFiles_run (with_patterns (split_lines value) w))
    as (errs & Herrs & Hrun).
  exists errs. split; [exact Herrs|].
  unfold omittedPaths_onblur.
  rewrite (bind_run get_data _ w (data w) w eq_refl).
  rewrite (bind_run (put_data _) _ w tt _ eq_refl).
  unfold with_patterns in Hrun. rewrite (bind_run _ _ _ _ _ Hrun).
  unfold view_redraw, throw. cbn zeta. simpl has_view.
  destruct (has_view w); reflexivity.
Qed.

(** X9: leaving the text area of the omitted patterns stores the lines of
    the text as the patterns and prunes the list with them: the entries
    kept are exactly the earlier entries that [shouldAddFile] accepts
    under the new patterns, in their order; the pruned data is written
    once; the vault is not enumerated.  With the view in place the pruned
    list is then redrawn and the handler completes normally; before the
    view is created [this.plugin.view.redraw()] throws after the write. *)
Theorem omittedPaths_onblur_prunes (value : string) (w : World) :
  let w' := exec (omittedPaths_onblur value) w in
  omittedPaths (data w') = split_lines value /\
  recentFiles (data w') = filter (accepts w') (recentFiles (data w)) /\
  (forall f, In f (recentFiles (data w')) -> accepts w' f = true) /\
  maxLength (data w') = maxLength (data w) /\
  openType (data w') = openType (data w) /\
  exists errs,
    Forall is_console_error errs /\
    (has_view w = true ->
     fst (omittedPaths_onblur value w) = Normal tt /\
     trace w' = Redraw (recentFiles (data w')) :: SaveData (data w') :: errs ++ trace w) /\
    (has_view w = false ->
     fst (omittedPaths_onblur value w) = Abrupt view_undefined /\
     trace w' = SaveData (data w') :: errs ++ trace w).
Proof.
  destruct (omittedPaths_onblur_run value w) as (errs & Herrs & Hrun).
  cbn zeta in Hrun.
  set (kept := filter (fun f => isAllowed (path f) (split_lines value))
                      (recentFiles (data w))) in *.
  set (d := with_recentFiles kept (with_omittedPaths (split_lines value) (data w))) in *.
  assert (Hdata : data (exec (omittedPaths_onblur value) w) = d).
  { unfold exec. rewrite Hrun. destruct (has_view w); reflexivity. }
  assert (Hacc : forall f, accepts (exec (omittedPaths_onblur value) w) f
                           = isAllowed (path f) (split_lines value)).
  { intros f. rewrite accepts_isAllowed, Hdata. reflexivity. }
  cbn zeta. rewrite Hdata.
  split; [reflexivity|]. split.
  { simpl. apply filter_ext. intros f. now rewrite Hacc. }
  split.
  { intros f Hf. rewrite Hacc. simpl in Hf. apply filter_In in Hf. apply Hf. }
  split; [reflexivity|]. split; [reflexivity|].
  exists errs. split; [exact Herrs|].
  unfold exec. rewrite Hrun.
  split; intros Hv; rewrite Hv; split; reflexivity.
Qed.

End PolicyComposition.

Lemma omittedPaths_onblur_prunes_witness :
  fst (omittedPaths_onblur (engine := Fragment.engine) "^daily/" tracking_world)
  = Normal tt /\
  fst (omittedPaths_onblur (engine := Fragment.engine) "^daily/" before_view_world)
  = Abrupt view_undefined /\
  recentFiles (data (exec (omittedPaths_onblur (engine := Fragment.engine) "^daily/")
                          before_view_world)) = [to_RecentFileInfo note_md].
Proof.
  destruct (omittedPaths_onblur_prunes (engine := Fragment.engine) "^daily/" tracking_world)
    as (_ & _ & _ & _ & _ & errs1 & _ & Hview & _).
  destruct (omittedPaths_onblur_prunes (engine := Fragment.engine) "^daily/" before_view_world)
    as (_ & Hlist & _ & _ & _ & errs2 & _ & _ & Hnone).
  split; [exact (proj1 (Hview eq_refl))|].
  split; [exact (proj1 (Hnone eq_refl))|].
  rewrite Hlist. reflexivity.
Defined.

(** ** More on [updateData] *)

Lemma modified_at_firstn (t : Z) (k : nat) (l : list RecentFileInfo) :
  exists k', modified_at t (firstn k l) = firstn k' (modified_at t l).
Proof.
  revert k. induction l as [|x l IH]; intros [|k]; simpl.
  - now exists O.
  - now exists O.
  - now exists O.
  - destruct (IH k) as [k' Hk']. unfold modified_at in *. simpl.
    destruct (mtime x =? t).
    + exists (S k'). simpl. now rewrite Hk'.
    + now exists k'.
Qed.

Lemma sorted_app_le {A} (R : A -> A -> Prop) (l1 l2 : list A) :
  StronglySorted R (l1 ++ l2) ->
  forall x y, In x l1 -> In y l2 -> R x y.
Proof.
  induction l1 as [|a l1 IH]; simpl; intros Hs x y Hx Hy; [contradiction|].
  inversion Hs as [|? ? Hs' Ha]; subst.
  destruct Hx as [->|Hx].
  - rewrite Forall_forall in Ha. apply Ha, in_or_app. now right.
  - now apply IH.
Qed.

Lemma recompute_is_prefix (files : list TFile) (m : MaybeNumber) :
  exists k, recompute files m =
            firstn k (array_sort sortFunc (map to_RecentFileInfo files)).
Proof. apply array_slice_from_0. Qed.

(** X10: after [updateData] the list is sorted by modification time,
    newest first, and files modified at the same time stay in the order
    the vault enumerates them: for every time, the tracked files of that
    time are the first ones of the vault's files of that time. *)
Theorem updateData_sorted_and_stable (w : World) :
  let l := recentFiles (data (exec updateData w)) in
  StronglySorted newer_or_equal l /\
  forall t, exists k,
      modified_at t l = firstn k (modified_at t (map to_RecentFileInfo (vault_files w))).
Proof.
  rewrite updateData_recentFiles. split; [apply recompute_sorted|].
  intros t. destruct (recompute_is_prefix (vault_files w) (maxLength (data w))) as [k ->].
  destruct (modified_at_firstn t k
              (array_sort sortFunc (map to_RecentFileInfo (vault_files w)))) as [k' ->].
  exists k'. now rewrite array_sort_stable.
Qed.

(** X11: [updateData] keeps the most recently modified files: a file of
    the vault that is left out of the list is not newer than any file in
    the list (whatever [maxLength] is, negative values included). *)
Theorem updateData_keeps_the_newest (w : World) (kept left_out : RecentFileInfo) :
  In kept (recentFiles (data (exec updateData w))) ->
  In left_out (map to_RecentFileInfo (vault_files w)) ->
  ~ In left_out (recentFiles (data (exec updateData w))) ->
  mtime left_out <= mtime kept.
Proof.
  rewrite updateData_recentFiles.
  destruct (recompute_is_prefix (vault_files w) (maxLength (data w))) as [k ->].
  set (sorted := array_sort sortFunc (map to_RecentFileInfo (vault_files w))).
  intros Hkept Hvault Hout.
  assert (Hs : StronglySorted newer_or_equal (firstn k sorted ++ skipn k sorted)).
  { rewrite firstn_skipn. apply array_sort_sorted. }
  apply (sorted_app_le _ _ _ Hs kept left_out Hkept).
  assert (Hin : In left_out (firstn k sorted ++ skipn k sorted)).
  { rewrite firstn_skipn.
    eapply Permutation_in; [apply Permutation_sym, array_sort_perm | exact Hvault]. }
  apply in_app_or in Hin as [Hin|Hin]; [contradiction | exact Hin].
Qed.

Lemma updateData_keeps_the_newest_witness :
  mtime (to_RecentFileInfo older_md) <= mtime (to_RecentFileInfo note_md).
Proof.
  apply (updateData_keeps_the_newest four_files_world).
  - right. left. reflexivity.
  - right. right. left. reflexivity.
  - intros [H|[H|[H|[]]]]; discriminate.
Defined.

(** X12: when the vault enumerates no path twice, no path is tracked
    twice after [updateData]. *)
Theorem updateData_no_duplicate_paths (w : World) :
  NoDup (map file_path (vault_files w)) ->
  NoDup (map path (recentFiles (data (exec updateData w)))).
Proof.
  intros H. rewrite updateData_recentFiles. now apply recompute_NoDup.
Qed.

Lemma updateData_no_duplicate_paths_witness :
  NoDup (map path (recentFiles (data (exec updateData four_files_world)))).
Proof.
  apply (updateData_no_duplicate_paths four_files_world).
  repeat constructor; simpl; intuition discriminate.
Defined.

(** X13: unless [maxLength] is negative, the list [updateData] stores has
    as many entries as the list length in force ([maxLength], or 40 when
    it is [null], [NaN] or [0]), or as the vault has files when these are
    fewer. *)
Theorem updateData_length (w : World) :
  0 <= or_default (maxLength (data w)) defaultMaxLength ->
  Z.of_nat (length (recentFiles (data (exec updateData w)))) =
  Z.min (or_default (maxLength (data w)) defaultMaxLength)
        (Z.of_nat (length (vault_files w))).
Proof.
  intros H. rewrite updateData_recentFiles. unfold recompute.
  rewrite array_slice_prefix by exact H.
  rewrite length_firstn, array_sort_length, length_map. lia.
Qed.

Lemma updateData_length_witness :
  Z.of_nat (length (recentFiles (data (exec updateData four_files_world)))) = Z.min 3 4.
Proof.
  apply (updateData_length four_files_world).
  apply Z.leb_le. reflexivity.
Defined.

(** X14: when the vault has no more files than the list length in force,
    [updateData] tracks every file of the vault. *)
Theorem updateData_tracks_small_vault (w : World) :
  Z.of_nat (length (vault_files w)) <= or_default (maxLength (data w)) defaultMaxLength ->
  Permutation (recentFiles (data (exec updateData w)))
              (map to_RecentFileInfo (vault_files w)).
Proof.
  intros H. rewrite updateData_recentFiles. unfold recompute.
  rewrite array_slice_prefix by lia.
  rewrite firstn_all2; [apply array_sort_perm|].
  rewrite array_sort_length, length_map. lia.
Qed.

Lemma updateData_tracks_small_vault_witness :
  Permutation (recentFiles (data (exec updateData omitting_world)))
              (map to_RecentFileInfo [daily_md; note_md]).
Proof.
  apply (updateData_tracks_small_vault omitting_world).
  apply Z.leb_le. reflexivity.
Defined.

(** X15: [updateData] starts from the vault alone: what was tracked
    before, the patterns and the open type have no influence on the new
    list, and every entry of the new list is a file the vault enumerates,
    so entries of files that are gone disappear. *)
Theorem updateData_forgets_the_previous_list
    (w : World) (previous : list RecentFileInfo) (patterns : list string)
    (open_type : string) :
  recentFiles (data (exec updateData
                       (set_data (with_openType open_type
                                    (with_omittedPaths patterns
                                       (with_recentFiles previous (data w)))) w))) =
  recentFiles (data (exec updateData w)) /\
  forall f, In f (recentFiles (data (exec updateData w))) ->
            exists file, In file (vault_files w) /\ f = to_RecentFileInfo file.
Proof.
  split; [reflexivity|].
  intros f Hf. rewrite updateData_recentFiles in Hf.
  apply recompute_incl in Hf. apply in_map_iff in Hf as (file & <- & Hfile).
  now exists file.
Qed.

(** ** More on the handlers *)

Lemma update_at_length {A} (i : nat) (f : A -> A) (l : list A) :
  length (update_at i f l) = length l.
Proof.
  revert i. induction l as [|x l IH]; intros [|i]; simpl; try reflexivity.
  now rewrite IH.
Qed.

Lemma update_at_map {A B} (g : A -> B) (i : nat) (f : A -> A) (l : list A) :
  (forall x, g (f x) = g x) -> map g (update_at i f l) = map g l.
Proof.
  intros Hf. revert i. induction l as [|x l IH]; intros [|i]; simpl; try reflexivity.
  - now rewrite Hf.
  - now rewrite IH.
Qed.

Lemma update_at_twice {A} (i : nat) (f g : A -> A) (l : list A) :
  update_at i g (update_at i f l) = update_at i (fun x => g (f x)) l.
Proof.
  revert i. induction l as [|x l IH]; intros [|i]; simpl; try reflexivity.
  now rewrite IH.
Qed.

Lemma update_at_found {A} (p : A -> bool) (f : A -> A) (l : list A) (i : nat) (x : A) :
  array_find_index p l = Some i -> In x l -> p x = false -> In x (update_at i f l).
Proof.
  revert i. induction l as [|y l IH]; intros i; simpl; [discriminate|].
  destruct (p y) eqn:Hy.
  - intros Hi. injection Hi as <-. intros [->|Hx] Hp; [congruence | now right].
  - destruct (array_find_index p l) as [j|]; [|discriminate].
    intros Hi. injection Hi as <-. intros [->|Hx] Hp; [now left|].
    right. now apply IH.
Qed.

(** Sortedness by modification time only depends on the times. *)
Lemma sorted_by_mtime (l1 l2 : list RecentFileInfo) :
  map mtime l1 = map mtime l2 ->
  StronglySorted newer_or_equal l1 -> StronglySorted newer_or_equal l2.
Proof.
  intros Hm Hs. revert l2 Hm. induction Hs as [|x l1 Hs IH Hx]; intros [|y l2] Hm;
    try discriminate; [constructor|].
  simpl in Hm. injection Hm as Hxy Hm. constructor; [now apply IH|].
  apply Forall_forall. intros z Hz.
  assert (Hin : In (mtime z) (map mtime l1)) by (rewrite Hm; now apply in_map).
  apply in_map_iff in Hin as (z' & Hz' & Hin).
  rewrite Forall_forall in Hx. specialize (Hx z' Hin).
  unfold newer_or_equal in *. lia.
Qed.

Lemma filter_sorted {A} (R : A -> A -> Prop) (keep : A -> bool) (l : list A) :
  StronglySorted R l -> StronglySorted R (filter keep l).
Proof.
  induction 1 as [|x l Hs IH Hx]; simpl; [constructor|].
  destruct (keep x); [|exact IH].
  constructor; [exact IH|].
  apply Forall_forall. intros y Hy. apply filter_In in Hy as [Hy _].
  rewrite Forall_forall in Hx. now apply Hx.
Qed.

Lemma handleRename_recentFiles (file : TAbstractFile) (oldPath : string) (w : World) :
  recentFiles (data (exec (handleRename file oldPath) w)) =
  match array_find_index (fun recentFile => String.eqb (path recentFile) oldPath)
                         (recentFiles (data w)) with
  | Some entry =>
      update_at entry
        (fun e => {| path := path e; basename := trimExtension (af_name file);
                     mtime := mtime e |})
        (update_at entry
           (fun e => {| path := af_path file; basename := basename e; mtime := mtime e |})
           (recentFiles (data w)))
  | None => recentFiles (data w)
  end.
Proof.
  unfold exec, handleRename. rewrite (bind_run get_data _ w (data w) w eq_refl).
  destruct (array_find_index _ _); [|reflexivity].
  unfold bind, set_entry, view_redraw, throw. simpl.
  destruct (has_view w); reflexivity.
Qed.

Lemma handleRename_times (file : TAbstractFile) (oldPath : string) (w : World) :
  map mtime (recentFiles (data (exec (handleRename file oldPath) w))) =
  map mtime (recentFiles (data w)).
Proof.
  rewrite handleRename_recentFiles.
  destruct (array_find_index _ _); [|reflexivity].
  now rewrite !update_at_map by reflexivity.
Qed.

(** X16: a rename never changes the modification times or the number of
    the entries, and every entry at another path than the old one stays
    in the list as it is. *)
Theorem handleRename_keeps_times_and_others
    (file : TAbstractFile) (oldPath : string) (w : World) :
  let after := recentFiles (data (exec (handleRename file oldPath) w)) in
  map mtime after = map mtime (recentFiles (data w)) /\
  length after = length (recentFiles (data w)) /\
  forall f, In f (recentFiles (data w)) -> path f <> oldPath -> In f after.
Proof.
  cbn zeta. rewrite handleRename_recentFiles.
  destruct (array_find_index _ _) as [entry|] eqn:E.
  - split; [now rewrite !update_at_map by reflexivity|].
    split; [now rewrite !update_at_length|].
    intros f Hf Hp. rewrite update_at_twice.
    eapply update_at_found; [exact E | exact Hf |]. now apply String.eqb_neq.
  - repeat split. now intros.
Qed.

(** X17: deleting a file leaves no entry at its path, and a second
    notification for the same file is silent: nothing is redrawn or
    written and the world stays as it is. *)
Theorem handleDelete_twice (file : TAbstractFile) (w : World) :
  let w' := exec (handleDelete file) w in
  (forall f, In f (recentFiles (data w')) -> path f <> af_path file) /\
  handleDelete file w' = (Normal tt, w').
Proof.
  cbn zeta.
  assert (Hl : recentFiles (data (exec (handleDelete file) w)) =
               without_path (af_path file) (recentFiles (data w))).
  { apply handleDelete_recentFiles. }
  split.
  - intros f Hf. rewrite Hl in Hf. apply filter_In in Hf as [_ Hf].
    apply negb_true_iff, String.eqb_neq in Hf. exact Hf.
  - remember (exec (handleDelete file) w) as w' eqn:Hw'.
    assert (Hfix : without_path (af_path file) (recentFiles (data w')) =
                   recentFiles (data w')).
    { rewrite Hl. apply filter_idempotent. }
    rewrite handleDelete_run. cbn zeta. rewrite Hfix, Nat.eqb_refl.
    now rewrite with_recentFiles_same, set_data_same.
Qed.

(** X18: the header menu's [Clear list] empties the list and writes the
    empty list, but only until the next edit: the editor-change handler
    that follows never takes its short cut and fills the list from the
    vault again. *)
Theorem clearList_lasts_until_next_edit (info_file : option string) (w : World) :
  recentFiles (data (exec clearList w)) = [] /\
  In (SaveData (with_recentFiles [] (data w))) (emitted clearList w) /\
  recentFiles (data (exec (update info_file) (exec clearList w))) =
    recompute (vault_files w) (maxLength (data w)) /\
  enumerates (update info_file) (exec clearList w).
Proof.
  split; [reflexivity|]. split; [right; left; reflexivity|].
  destruct info_file; split; try reflexivity; right; right; left; reflexivity.
Qed.

(** X19: the short cut of the editor-change handler does its work while
    the user types in the newest file of the vault: once that file heads
    the recomputed list, a further editor change for it leaves the world
    as it is (no enumeration, no write, no redraw).  When another file
    heads the recomputed list, the short cut does not apply after the
    recompute: the next editor change enumerates the vault again. *)
Theorem update_twice (p : string) (w : World) :
  (forall first rest,
      recompute (vault_files w) (maxLength (data w)) = first :: rest ->
      path first = p ->
      update (Some p) (exec (update (Some p)) w) = (Normal tt, exec (update (Some p)) w)) /\
  (~ already_first p w ->
   (forall first rest,
       recompute (vault_files w) (maxLength (data w)) = first :: rest ->
       path first <> p) ->
   enumerates (update (Some p)) (exec (update (Some p)) w)).
Proof.
  assert (Hafter : ~ already_first p w ->
            recentFiles (data (exec (update (Some p)) w)) =
            recompute (vault_files w) (maxLength (data w))).
  { intros Hn. unfold exec. now rewrite (proj2 (update_run p w) Hn). }
  assert (Hdec : already_first p w \/ ~ already_first p w).
  { rewrite already_first_test. destruct (_ && _); [now left | right; discriminate]. }
  split.
  - intros first rest Hr Hp. apply update_run.
    destruct Hdec as [Ha|Hn].
    + unfold exec. now rewrite (proj1 (update_run p w) Ha).
    + exists first, rest. now rewrite (Hafter Hn).
  - intros Hn Hother.
    assert (Hn' : ~ already_first p (clear_trace (exec (update (Some p)) w))).
    { intros (first & rest & Hl & Hp). simpl in Hl.
      rewrite (Hafter Hn) in Hl. exact (Hother first rest Hl Hp). }
    unfold enumerates, emitted, exec at 1.
    rewrite (proj2 (update_run p _) Hn'). simpl. auto.
Qed.

Lemma update_twice_witness :
  update (Some "daily/2024-01-01.md") (exec (update (Some "daily/2024-01-01.md")) four_files_world)
  = (Normal tt, exec (update (Some "daily/2024-01-01.md")) four_files_world) /\
  enumerates (update (Some "note.md")) (exec (update (Some "note.md")) four_files_world).
Proof.
  split.
  - apply (proj1 (update_twice "daily/2024-01-01.md" four_files_world)
             (to_RecentFileInfo daily_md)
             [to_RecentFileInfo note_md; to_RecentFileInfo old_md]);
      reflexivity.
  - apply (proj2 (update_twice "note.md" four_files_world)).
    + intros (first & rest & Hl & _). discriminate.
    + intros first rest Hl. injection Hl as <- _. discriminate.
Defined.

(** ** Invariants over the events *)

Section Invariants.
Context {engine : RegExpEngine}.

Lemma filter_all {A} (l : list A) : filter (fun _ => true) l = l.
Proof. induction l as [|x l IH]; simpl; [reflexivity | now f_equal]. Qed.

Lemma filter_none {A} (l : list A) : filter (fun _ => false) l = [].
Proof. induction l as [|x l IH]; simpl; [reflexivity | exact IH]. Qed.

(** Apart from the editor change and the rename, every event leaves a
    part of the list, in order. *)
Lemma handle_recentFiles (ev : Event) (w : World) :
  is_editor_change ev \/
  (exists file oldPath, ev = VaultRename file oldPath) \/
  exists keep, recentFiles (data (exec (handle ev) w)) = filter keep (recentFiles (data w)).
Proof.
  destruct ev as [file|info|file oldPath|file|file split| |value|parsed|parsed
                  |value|files folders|pinned| ].
  - right; right. exists (fun _ => true). rewrite filter_all.
    unfold exec, handle, of_view. destruct (has_view w); reflexivity.
  - left. exact I.
  - right; left. now exists file, oldPath.
  - right; right. eexists. unfold handle. apply handleDelete_recentFiles.
  - right; right. unfold exec, handle, of_view.
    destruct (has_view w); [|exists (fun _ => true); now rewrite filter_all].
    unfold focusFile. destruct (getAbstractFileByPath w (path file)).
    + exists (fun _ => true). now rewrite filter_all.
    + eexists. reflexivity.
  - right; right. unfold exec, handle, of_view. destruct (has_view w).
    + exists (fun _ => false). now rewrite filter_none.
    + exists (fun _ => true). now rewrite filter_all.
  - right; right. unfold exec, handle.
    destruct (omittedPaths_onblur_run value w) as (errs & _ & ->). eexists.
    cbn zeta. destruct (has_view w); reflexivity.
  - right; right. exists (fun _ => true). rewrite filter_all.
    unfold exec, handle, maxLength_onChange.
    destruct parsed as [z|]; [destruct (z <=? 0)|]; reflexivity.
  - right; right. exists (fun _ => true). rewrite filter_all.
    unfold exec, handle, maxLength_onblur, bind, view_redraw, throw. simpl.
    destruct (has_view w); reflexivity.
  - right; right. exists (fun _ => true). now rewrite filter_all.
  - right; right. exists (fun _ => true). now rewrite filter_all.
  - right; right. exists (fun _ => true). now rewrite filter_all.
  - right; right. exists (fun _ => true). now rewrite filter_all.
Qed.

Lemma handle_keeps_sorted (ev : Event) (w : World) :
  StronglySorted newer_or_equal (recentFiles (data w)) ->
  StronglySorted newer_or_equal (recentFiles (data (exec (handle ev) w))).
Proof.
  intros Hs.
  destruct (handle_recentFiles ev w) as [He|[(file & oldPath & ->)|(keep & ->)]].
  - destruct ev as [ |info| | | | | | | | | | | ]; try contradiction.
    unfold exec, handle, of_view. destruct (has_view w); [|exact Hs].
    unfold update. rewrite (bind_run get_data _ w (data w) w eq_refl).
    match goal with |- context [if ?c then _ else _] => destruct c end.
    + exact Hs.
    + apply recompute_sorted.
  - eapply sorted_by_mtime; [|exact Hs].
    symmetry. apply (handleRename_times file oldPath w).
  - now apply filter_sorted.
Qed.

(** X20: the order of the list is an invariant of the plugin: if the list
    is sorted by modification time, newest first, it is still so after any
    sequence of events (edits, renames, deletions, clicks, clearing,
    changes of the settings). *)
Theorem run_events_keeps_sorted (evs : list Event) (w : World) :
  StronglySorted newer_or_equal (recentFiles (data w)) ->
  StronglySorted newer_or_equal (recentFiles (data (run_events evs w))).
Proof.
  revert w. induction evs as [|ev evs IH]; intros w Hs; simpl; [exact Hs|].
  apply IH. now apply handle_keeps_sorted.
Qed.

End Invariants.

Lemma run_events_keeps_sorted_witness :
  StronglySorted newer_or_equal
    (recentFiles (data (run_events (engine := Fragment.engine) sample_session
                          tracking_world))).
Proof.
  apply (run_events_keeps_sorted (engine := Fragment.engine) sample_session tracking_world).
  repeat constructor. unfold newer_or_equal. simpl. lia.
Defined.

Section Frames.
Context {engine : RegExpEngine}.

Lemma console_errors_no_enumeration (errs : list Effect) :
  Forall is_console_error errs -> ~ In VaultGetFiles errs.
Proof.
  intros H Hin. rewrite Forall_forall in H. destruct (H _ Hin) as [msg E]. discriminate.
Qed.

(** X21: only the editor change enumerates the vault and only it can make
    the list longer: every other event (file open, rename, deletion,
    click, clearing, any change of the settings) leaves the vault alone
    and a list of at most the length it had. *)
Theorem only_editor_change_enumerates (ev : Event) (w : World) :
  ~ is_editor_change ev ->
  ~ enumerates (handle ev) w /\
  (length (recentFiles (data (exec (handle ev) w))) <= length (recentFiles (data w)))%nat.
Proof.
  intros Hev. split.
  - unfold enumerates, emitted, exec.
    destruct ev as [file|info|file oldPath|file|file split| |value|parsed|parsed
                    |value|files folders|pinned| ]; unfold handle, of_view;
      try change (has_view (clear_trace w)) with (has_view w).
    + destruct (has_view w); simpl; intuition discriminate.
    + contradiction Hev. exact I.
    + unfold handleRename.
      rewrite (bind_run get_data _ _ (data (clear_trace w)) _ eq_refl).
      destruct (array_find_index _ _); [|simpl; intuition].
      unfold bind, set_entry, view_redraw, throw. simpl.
      destruct (has_view w); simpl; intuition discriminate.
    + rewrite handleDelete_run. cbn zeta.
      change (has_view (clear_trace w)) with (has_view w).
      destruct (Nat.eqb _ _); [|destruct (has_view w)]; simpl; intuition discriminate.
    + destruct (has_view w); [|simpl; intuition].
      unfold focusFile. destruct (getAbstractFileByPath _ _); simpl; intuition discriminate.
    + destruct (has_view w); simpl; intuition discriminate.
    + destruct (omittedPaths_onblur_run value (clear_trace w)) as (errs & Herrs & ->).
      cbn zeta. change (has_view (clear_trace w)) with (has_view w).
      destruct (has_view w); simpl; rewrite app_nil_r.
      * intros [E|[E|Hin]]; try discriminate.
        exact (console_errors_no_enumeration errs Herrs Hin).
      * intros [E|Hin]; try discriminate.
        exact (console_errors_no_enumeration errs Herrs Hin).
    + unfold maxLength_onChange. destruct parsed as [z|]; [destruct (z <=? 0)|];
        simpl; intuition discriminate.
    + unfold maxLength_onblur, bind, view_redraw, throw. simpl.
      destruct (has_view w); simpl; intuition discriminate.
    + simpl. intuition discriminate.
    + simpl. intuition.
    + simpl. intuition.
    + simpl. intuition discriminate.
  - destruct (handle_recentFiles ev w) as [He|[(file & oldPath & ->)|(keep & ->)]].
    + contradiction.
    + simpl handle. rewrite handleRename_recentFiles.
      destruct (array_find_index _ _); [|lia]. rewrite !update_at_length. lia.
    + apply filter_length_le.
Qed.

Lemma maxLength_onblur_run (parsed : option Z) (w : World) :
  maxLength_onblur parsed w =
  let d := with_maxLength (of_parseInt parsed) (data w) in
  if has_view w
  then (Normal tt, add_trace [Redraw (recentFiles (data w))] (set_data d w))
  else (Abrupt view_undefined, set_data d w).
Proof.
  unfold maxLength_onblur, bind, view_redraw, throw. simpl.
  destruct (has_view w); reflexivity.
Qed.

(** X22: leaving the list-length field stores whatever [parseInt] gave,
    a value of zero or below and [NaN] included, in memory only: nothing
    is written and the list is not cut.  The value stays in force, and is
    the one every later write carries, until the field is edited again. *)
Theorem maxLength_onblur_stores_without_writing
    (parsed : option Z) (evs : list Event) (w : World) :
  Forall (fun ev => ~ edits_maxLength ev) evs ->
  let w1 := exec (maxLength_onblur parsed) w in
  let w2 := run_events evs w1 in
  ~ persists (maxLength_onblur parsed) w /\
  recentFiles (data w1) = recentFiles (data w) /\
  maxLength (data w1) = of_parseInt parsed /\
  maxLength (data w2) = of_parseInt parsed /\
  (forall d, In (SaveData d) (trace w2) ->
             In (SaveData d) (trace w) \/ maxLength d = of_parseInt parsed).
Proof.
  intros Hevs w1 w2.
  destruct (run_events_keeps_maxLength evs w1 Hevs) as [Hm Hs]. fold w2 in Hm, Hs.
  assert (Hd1 : data w1 = with_maxLength (of_parseInt parsed) (data w)).
  { unfold w1, exec. rewrite maxLength_onblur_run. cbn zeta.
    destruct (has_view w); reflexivity. }
  assert (Ht1 : forall d, In (SaveData d) (trace w1) -> In (SaveData d) (trace w)).
  { unfold w1, exec. rewrite maxLength_onblur_run. cbn zeta.
    destruct (has_view w); simpl; [|now intros].
    intros d [E|Hd]; [discriminate | exact Hd]. }
  rewrite Hd1 in Hm, Hs. simpl in Hm, Hs.
  split; [|split; [now rewrite Hd1 | split; [now rewrite Hd1 | split; [exact Hm|]]]].
  - unfold persists, emitted, exec. rewrite maxLength_onblur_run. cbn zeta.
    change (has_view (clear_trace w)) with (has_view w).
    destruct (has_view w); simpl; intros [d Hd]; [destruct Hd as [E|[]]; discriminate | exact Hd].
  - intros d Hd. destruct (Hs d Hd) as [Hd'|Hd']; [left; now apply Ht1 | now right].
Qed.

End Frames.

Lemma only_editor_change_enumerates_witness :
  ~ enumerates (handle (engine := Fragment.engine) (OmittedPathsBlur "^daily/"))
      tracking_world /\
  (length (recentFiles
             (data (exec (handle (engine := Fragment.engine) (OmittedPathsBlur "^daily/"))
                         tracking_world)))
   <= length (recentFiles (data tracking_world)))%nat.
Proof.
  apply (only_editor_change_enumerates (engine := Fragment.engine) (OmittedPathsBlur "^daily/") tracking_world).
  intros [].
Defined.

Lemma maxLength_onblur_stores_without_writing_witness :
  let w2 := run_events (engine := Fragment.engine) sample_session
              (exec (maxLength_onblur (Some (-1))) (fresh_world [daily_md; note_md])) in
  maxLength (data w2) = Num (-1) /\
  (forall d, In (SaveData d) (trace w2) -> maxLength d = Num (-1)).
Proof.
  destruct (maxLength_onblur_stores_without_writing (engine := Fragment.engine)
              (Some (-1)) sample_session (fresh_world [daily_md; note_md]))
    as (_ & _ & _ & Hm & Hs).
  - repeat constructor; intros [].
  - split; [exact Hm|].
    intros d Hd. destruct (Hs d Hd) as [[]|E]. exact E.
Defined.

(** ** Opening a file that exists *)

(** X23: a click on an entry whose file (or folder) is in the vault opens
    it and changes nothing else: the list and the settings stay, nothing
    is written or redrawn.  The file goes to the most recent leaf unless
    a split was asked for or that leaf is pinned; then a new leaf of the
    configured type is used, a tab for any type other than [split] and
    [window]. *)
Theorem focusFile_opens_existing_file
    (w : World) (file : RecentFileInfo) (shouldSplit : bool) (target : string) :
  getAbstractFileByPath w (path file) = Some target ->
  exists leaf,
    focusFile file shouldSplit w = (Normal tt, add_trace [LeafOpenFile target leaf] w) /\
    target = path file /\
    (leaf = MostRecentLeaf <-> shouldSplit = false /\ leaf_pinned w = false) /\
    (forall kind, leaf = NewLeaf kind ->
                  (kind = openType (data w) /\ (kind = "split" \/ kind = "window")) \/
                  (kind = "tab" /\ openType (data w) <> "split"
                   /\ openType (data w) <> "window")).
Proof.
  intros H. unfold focusFile. rewrite H.
  assert (Ht : target = path file).
  { unfold getAbstractFileByPath in H. destruct (_ || _); [now injection H | discriminate]. }
  destruct shouldSplit, (leaf_pinned w); simpl;
    try (destruct (String.eqb_spec (openType (data w)) "split") as [Es|Es];
         [|destruct (String.eqb_spec (openType (data w)) "window") as [Ew|Ew]]);
    eexists; (split; [reflexivity|]); (split; [exact Ht|]); split;
    try (split; [discriminate | intros [? ?]; discriminate]);
    try (split; [now intros _ | reflexivity]);
    try discriminate;
    intros kind Hk; injection Hk as <-; auto.
Qed.

Lemma focusFile_opens_existing_file_witness :
  exists leaf,
    focusFile (to_RecentFileInfo note_md) true tracking_world =
    (Normal tt, add_trace [LeafOpenFile "note.md" leaf] tracking_world).
Proof.
  destruct (focusFile_opens_existing_file tracking_world (to_RecentFileInfo note_md)
              true "note.md" eq_refl) as (leaf & Hrun & _).
  exists leaf. exact Hrun.
Defined.

(** ** Renaming back *)

Lemma handleRename_first (file : TAbstractFile) (oldPath : string) (w : World)
    (pre post : list RecentFileInfo) (e : RecentFileInfo) :
  recentFiles (data w) = pre ++ e :: post ->
  (forall x, In x pre -> path x <> oldPath) ->
  path e = oldPath ->
  recentFiles (data (exec (handleRename file oldPath) w)) =
  pre ++ {| path := af_path file; basename := trimExtension (af_name file);
            mtime := mtime e |} :: post.
Proof.
  intros Hl Hpre He. rewrite handleRename_recentFiles, Hl.
  rewrite array_find_index_first.
  - now rewrite update_at_twice, update_at_middle.
  - intros x Hx. apply String.eqb_neq. now apply Hpre.
  - now apply String.eqb_eq.
Qed.

(** X24: renaming a tracked file and renaming it back restores its entry:
    when no earlier entry of the list is at either path, the entry is
    again at its old path, at its position and with its modification
    time, and its base name is the old name without its extension; the
    other entries are as they were. *)
Theorem handleRename_there_and_back
    (w : World) (a b nameA nameB : string)
    (pre post : list RecentFileInfo) (e : RecentFileInfo) :
  recentFiles (data w) = pre ++ e :: post ->
  (forall x, In x pre -> path x <> a /\ path x <> b) ->
  path e = a ->
  let there := exec (handleRename {| af_path := b; af_name := nameB |} a) w in
  let back := exec (handleRename {| af_path := a; af_name := nameA |} b) there in
  recentFiles (data back) =
    pre ++ {| path := a; basename := trimExtension nameA; mtime := mtime e |} :: post /\
  (basename e = trimExtension nameA -> recentFiles (data back) = recentFiles (data w)).
Proof.
  intros Hl Hpre He there back.
  assert (Hthere : recentFiles (data there) =
                   pre ++ {| path := b; basename := trimExtension nameB;
                             mtime := mtime e |} :: post).
  { apply (handleRename_first {| af_path := b; af_name := nameB |} a w pre post e Hl);
      [|exact He].
    intros x Hx. apply (Hpre x Hx). }
  assert (Hback : recentFiles (data back) =
                  pre ++ {| path := a; basename := trimExtension nameA;
                            mtime := mtime e |} :: post).
  { apply (handleRename_first {| af_path := a; af_name := nameA |} b there pre post _ Hthere);
      [|reflexivity].
    intros x Hx. apply (Hpre x Hx). }
  split; [exact Hback|].
  intros Hb. rewrite Hback, Hl. do 2 f_equal.
  destruct e as [pe be me]. simpl in *. now subst.
Qed.

Lemma handleRename_there_and_back_witness :
  recentFiles
    (data (exec (handleRename {| af_path := "note.md"; af_name := "note.md" |} "idea.md")
             (exec (handleRename {| af_path := "idea.md"; af_name := "idea.md" |} "note.md")
                tracking_world))) =
  recentFiles (data tracking_world).
Proof.
  assert (Hpre : forall x, In x [to_RecentFileInfo daily_md] ->
                            path x <> "note.md" /\ path x <> "idea.md").
  { intros x [<-|[]]. split; discriminate. }
  apply (proj2 (handleRename_there_and_back tracking_world "note.md" "idea.md"
                  "note.md" "idea.md"
                  [to_RecentFileInfo daily_md] [] (to_RecentFileInfo note_md)
                  eq_refl Hpre eq_refl)).
  reflexivity.
Defined.

(** ** The rows of the list *)

Lemma render_no_active_row (p : string) (shown : list RecentFileInfo) :
  ~ In p (map path shown) ->
  filter row_active (render (Some p) shown) = [].
Proof.
  induction shown as [|x l IH]; simpl; intros H; [reflexivity|].
  destruct (String.eqb_spec (path x) p) as [E|_].
  - contradiction H. now left.
  - apply IH. intros Hin. apply H. now right.
Qed.

(** X25: [redraw] builds one row per entry, in the order of the list, with
    the base name as tooltip and the title without a date prefix as text;
    when the tracked paths are distinct at most one row is marked active,
    and none is when no file is open. *)
Theorem render_marks_at_most_one_row (openFile : option string) (shown : list RecentFileInfo) :
  NoDup (map path shown) ->
  map row_title (render openFile shown) = map basename shown /\
  map row_text (render openFile shown) = map (fun f => title_text (basename f)) shown /\
  (length (filter row_active (render openFile shown)) <= 1)%nat /\
  (forall row, In row (render openFile shown) -> row_active row = true ->
               exists f, In f shown /\ Some (path f) = openFile) /\
  filter row_active (render None shown) = [].
Proof.
  intros Hnd. unfold render. rewrite !map_map. simpl.
  split; [reflexivity|]. split; [reflexivity|]. split; [|split].
  - destruct openFile as [p|].
    + induction shown as [|x l IH]; simpl; [lia|].
      inversion Hnd as [|? ? Hx Hl]; subst.
      destruct (String.eqb_spec (path x) p) as [E|_].
      * simpl. subst p. fold (render (Some (path x)) l).
        rewrite (render_no_active_row (path x) l Hx). simpl. lia.
      * now apply IH.
    + induction shown as [|x l IH]; simpl; [lia|].
      inversion Hnd; subst. now apply IH.
  - intros row Hrow Hact. apply in_map_iff in Hrow as (f & <- & Hf).
    exists f. split; [exact Hf|]. simpl in Hact.
    destruct openFile as [p|]; [|discriminate].
    apply String.eqb_eq in Hact. now rewrite Hact.
  - clear Hnd. induction shown as [|x l IH]; simpl; [reflexivity | exact IH].
Qed.

Lemma render_marks_at_most_one_row_witness :
  (length (filter row_active
             (render (Some "note.md") (recentFiles (data tracking_world)))) <= 1)%nat.
Proof.
  apply (render_marks_at_most_one_row (Some "note.md") (recentFiles (data tracking_world))).
  repeat constructor; simpl; intuition discriminate.
Defined.

(** ** The comparator *)

(** X26: [sortFunc] is a consistent comparator, as [Array.prototype.sort]
    requires for a defined result: it answers [-1], [0] or [1]; swapping
    the arguments negates the answer; it answers [0] exactly for equal
    modification times and [-1] exactly when the first file is newer; and
    "not after" is transitive. *)
Theorem sortFunc_consistent (a b c : RecentFileInfo) :
  (sortFunc a b = -1 \/ sortFunc a b = 0 \/ sortFunc a b = 1) /\
  sortFunc b a = - sortFunc a b /\
  (sortFunc a b = 0 <-> mtime a = mtime b) /\
  (sortFunc a b = -1 <-> mtime b < mtime a) /\
  (sortFunc a b <= 0 -> sortFunc b c <= 0 -> sortFunc a c <= 0).
Proof.
  unfold sortFunc.
  destruct (Z.gtb_spec (mtime a) (mtime b)), (Z.ltb_spec (mtime a) (mtime b)),
    (Z.gtb_spec (mtime b) (mtime a)), (Z.ltb_spec (mtime b) (mtime a)),
    (Z.gtb_spec (mtime b) (mtime c)), (Z.ltb_spec (mtime b) (mtime c)),
    (Z.gtb_spec (mtime a) (mtime c)), (Z.ltb_spec (mtime a) (mtime c));
    try lia; repeat split; intros; try lia; auto.
Qed.

Lemma sortFunc_consistent_witness :
  sortFunc (to_RecentFileInfo daily_md) (to_RecentFileInfo old_md) <= 0.
Proof.
  apply (proj2 (proj2 (proj2 (proj2
           (sortFunc_consistent (to_RecentFileInfo daily_md) (to_RecentFileInfo note_md)
                                (to_RecentFileInfo old_md)))))).
  - apply Z.leb_le. reflexivity.
  - apply Z.leb_le. reflexivity.
Defined.
